(** * Console helper bot: address book, field validators, birthdays

    A shallow embedding of [ht1_console_helper_bot.py]: the field classes
    ([Name], [Phone], [Birthday]), [Record], [AddressBook], the two
    persistence back ends and the [add_contact] handler, followed by the
    properties of the specification that concern them.

    Conventions of the embedding:
    - a Python [str] is the list of its code points;
    - an exception is a value of [exn]; code that can raise returns a
      [result];
    - the address book is the dict [self.data] in insertion order, that is
      an association list without repeated keys;
    - a [Record] held by the book is referred to by its key, so that a
      mutation through a reference obtained from [find] is an update of the
      entry under that key. *)

From Stdlib Require Import Ascii String DecimalString.
From Stdlib Require Import ZArith NArith Bool List Lia.
Import ListNotations.

Open Scope Z_scope.

(** ** Strings *)

Definition str := list N.

Fixpoint py (s : string) : str :=
  match s with
  | EmptyString => []
  | String a t => N_of_ascii a :: py t
  end.

Fixpoint str_eqb (a b : str) : bool :=
  match a, b with
  | [], [] => true
  | x :: a', y :: b' => (x =? y)%N && str_eqb a' b'
  | _, _ => false
  end.

Definition is_empty (s : str) : bool :=
  match s with [] => true | _ => false end.

Definition in_range (lo hi c : N) : bool := ((lo <=? c) && (c <=? hi))%N.

Definition is_ascii_digit (c : N) : bool := in_range 48 57 c.
Definition is_ascii_lower (c : N) : bool := in_range 97 122 c.
Definition is_ascii_upper (c : N) : bool := in_range 65 90 c.
Definition is_ascii (c : N) : bool := (c <? 128)%N.

(** [str.capitalize] on a string of ASCII characters: the first character
    in upper case, the others in lower case. *)
Definition ascii_upper (c : N) : N := if is_ascii_lower c then (c - 32)%N else c.
Definition ascii_lower (c : N) : N := if is_ascii_upper c then (c + 32)%N else c.

Definition ascii_capitalize (s : str) : str :=
  match s with
  | [] => []
  | c :: t => ascii_upper c :: map ascii_lower t
  end.

(** [str(n)] for an integer. *)
Definition str_of_Z (n : Z) : str := py (NilZero.string_of_int (Z.to_int n)).

(** ** The Unicode character database

    [str.isalpha], the class [\d] of a [str] pattern, [int] and
    [str.capitalize] read the character database of the interpreter.  The
    development is parametric in it; the laws are the part of the database
    that no version changes (the Basic Latin block). *)

Class UnicodeData : Type := {
  (** general category Letter, as tested by [str.isalpha] *)
  isalpha_char : N -> bool;
  (** general category Nd, as matched by [\d] *)
  isdecimal_char : N -> bool;
  (** the digit value that [int] reads *)
  decimal_value : N -> Z;
  (** [str.capitalize] *)
  capitalize : str -> str;
  decimal_ascii :
    forall c, is_ascii_digit c = true -> isdecimal_char c = true;
  decimal_value_ascii :
    forall c, is_ascii_digit c = true -> decimal_value c = Z.of_N c - 48;
  decimal_value_bounds :
    forall c, isdecimal_char c = true -> 0 <= decimal_value c <= 9;
  capitalize_ascii :
    forall s, forallb is_ascii s = true -> capitalize s = ascii_capitalize s
}.

(** ** Exceptions *)

Inductive exn : Type :=
| ValueError (msg : str)
| KeyError (msg : str)
| IndexError (msg : str)
| TypeError
| AttributeError
| OverflowError
| FileNotFoundError
| UnpicklingError.

Inductive result (A : Type) : Type :=
| Ok (a : A)
| Raise (e : exn).

Arguments Ok {A} a.
Arguments Raise {A} e.

Definition bind {A B} (r : result A) (k : A -> result B) : result B :=
  match r with
  | Ok a => k a
  | Raise e => Raise e
  end.

Notation "x <- r ;; k" := (bind r (fun x => k))
  (at level 61, r at next level, right associativity).
Notation "r ;;; k" := (bind r (fun _ => k))
  (at level 61, right associativity).

Definition InvalidName : exn := ValueError (py "Name must contain only letters.").
Definition InvalidPhone : exn :=
  ValueError (py "Phone number must be exactly 10 digits.").
Definition InvalidDate : exn :=
  ValueError (py "Invalid date format. Use DD.MM.YYYY").

(** ** Field validators *)

Section Fields.
Context {U : UnicodeData}.

(** [str.isalpha]: every character is a letter and there is at least one. *)
Definition isalpha (s : str) : bool :=
  negb (is_empty s) && forallb isalpha_char s.

(** [Name.validate]. *)
Definition Name_validate (value : str) : result str :=
  if is_empty value || negb (isalpha value)
  then Raise InvalidName
  else Ok (capitalize value).

(** [Name.__init__]: the result of [validate] is dropped and
    [Field.__init__] stores [value] itself. *)
Definition Name_init (value : str) : result str :=
  Name_validate value ;;; Ok value.

(** [re.fullmatch(r"\d{10}", value)]. *)
Definition phone_re (value : str) : bool :=
  (length value =? 10)%nat && forallb isdecimal_char value.

(** [Phone.validate]. *)
Definition Phone_validate (value : str) : result unit :=
  if negb (phone_re value) then Raise InvalidPhone else Ok tt.

(** [Phone.__init__]. *)
Definition Phone_init (value : str) : result str :=
  Phone_validate value ;;; Ok value.

End Fields.

(** ** Calendar dates ([datetime.date]) *)

Record date : Type := mkdate { year : Z; month : Z; day : Z }.

Definition MINYEAR : Z := 1.
Definition MAXYEAR : Z := 9999.

Definition is_leap (y : Z) : bool :=
  (y mod 4 =? 0) && (negb (y mod 100 =? 0) || (y mod 400 =? 0)).

Definition days_in_month (y m : Z) : Z :=
  if m =? 2 then (if is_leap y then 29 else 28)
  else if (m =? 4) || (m =? 6) || (m =? 9) || (m =? 11) then 30
  else 31.

(** [_check_date_fields]. *)
Definition valid_ymd (y m d : Z) : bool :=
  (MINYEAR <=? y) && (y <=? MAXYEAR) && (1 <=? m) && (m <=? 12)
  && (1 <=? d) && (d <=? days_in_month y m).

Definition valid_date (d : date) : bool := valid_ymd (year d) (month d) (day d).

(** The constructor [date(year, month, day)]. *)
Definition date_new (y m d : Z) : result date :=
  if negb ((MINYEAR <=? y) && (y <=? MAXYEAR))
  then Raise (ValueError (py "year " ++ str_of_Z y ++ py " is out of range"))
  else if negb ((1 <=? m) && (m <=? 12))
  then Raise (ValueError (py "month must be in 1..12"))
  else if negb ((1 <=? d) && (d <=? days_in_month y m))
  then Raise (ValueError (py "day is out of range for month"))
  else Ok (mkdate y m d).

(** [date.replace(year=y)]. *)
Definition replace_year (d : date) (y : Z) : result date :=
  date_new y (month d) (day d).

(** [date.__lt__]: the order of the triples (year, month, day). *)
Definition date_ltb (a b : date) : bool :=
  (year a <? year b)
  || ((year a =? year b)
      && ((month a <? month b)
          || ((month a =? month b) && (day a <? day b)))).

(** [_days_before_year], [_days_before_month] and [date.toordinal]:
    1 January of year 1 is day 1. *)
Definition days_before_year (y : Z) : Z :=
  let y' := y - 1 in y' * 365 + y' / 4 - y' / 100 + y' / 400.

Definition DAYS_BEFORE_MONTH (m : Z) : Z :=
  if m =? 1 then 0 else if m =? 2 then 31 else if m =? 3 then 59
  else if m =? 4 then 90 else if m =? 5 then 120 else if m =? 6 then 151
  else if m =? 7 then 181 else if m =? 8 then 212 else if m =? 9 then 243
  else if m =? 10 then 273 else if m =? 11 then 304 else 334.

Definition days_before_month (y m : Z) : Z :=
  DAYS_BEFORE_MONTH m + (if (2 <? m) && is_leap y then 1 else 0).

Definition toordinal (d : date) : Z :=
  days_before_year (year d) + days_before_month (year d) (month d) + day d.

Definition MAXORDINAL : Z := 3652059.

(** [date.weekday]: Monday is 0, Saturday 5, Sunday 6. *)
Definition weekday (d : date) : Z := (toordinal d + 6) mod 7.

(** The day after [d]. *)
Definition tomorrow (d : date) : date :=
  if day d <? days_in_month (year d) (month d)
  then mkdate (year d) (month d) (day d + 1)
  else if month d <? 12 then mkdate (year d) (month d + 1) 1
  else mkdate (year d + 1) 1 1.

(** The date [k] days after [d]. *)
Definition days_later (k : nat) (d : date) : date := Nat.iter k tomorrow d.

(** [date + timedelta(days=k)]: [OverflowError] past 31 December 9999. *)
Definition date_add (d : date) (k : nat) : result date :=
  if toordinal d + Z.of_nat k <=? MAXORDINAL
  then Ok (days_later k d)
  else Raise OverflowError.

(** [(a - b).days]. *)
Definition days_between (a b : date) : Z := toordinal a - toordinal b.

(** [strftime("%d.%m.%Y")]: Python hands the format to the [strftime] of
    the C library.  Day and month are written on two digits.  The year is
    written as glibc writes [%Y], the C library of the Linux systems the
    program runs on: the decimal numeral of the year without padding, so
    that 990 takes three characters.  From 1000 on the year takes four
    characters, as it does with every C library. *)
Definition digit_char (v : Z) : N := Z.to_N (48 + v).

Definition pad2 (n : Z) : str := [digit_char (n / 10 mod 10); digit_char (n mod 10)].

Definition pad4 (n : Z) : str :=
  [digit_char (n / 1000 mod 10); digit_char (n / 100 mod 10);
   digit_char (n / 10 mod 10); digit_char (n mod 10)].

(** The numeral of a year from 1 to 9999. *)
Definition year_text (n : Z) : str :=
  if n <? 10 then [digit_char (n mod 10)]
  else if n <? 100 then pad2 n
  else if n <? 1000 then digit_char (n / 100 mod 10) :: pad2 n
  else pad4 n.

Definition strftime_dmY (d : date) : str :=
  pad2 (day d) ++ [46%N] ++ pad2 (month d) ++ [46%N] ++ year_text (year d).

(** ** Birthday: the pattern and [strptime] *)

Section BirthdayField.
Context {U : UnicodeData}.

(** The alternatives [0[1-9]|[12]\d|3[01]] and [0[1-9]|1[0-2]]. *)
Definition re_day (a b : N) : bool :=
  ((a =? 48)%N && in_range 49 57 b)
  || (in_range 49 50 a && isdecimal_char b)
  || ((a =? 51)%N && in_range 48 49 b).

Definition re_month (a b : N) : bool :=
  ((a =? 48)%N && in_range 49 57 b) || ((a =? 49)%N && in_range 48 50 b).

(** [re.fullmatch(r"^(0[1-9]|[12]\d|3[01])\.(0[1-9]|1[0-2])\.\d{4}$", value)]:
    every alternative is two characters wide, so a match is ten characters. *)
Definition birthday_re (value : str) : bool :=
  match value with
  | [d1; d2; p1; m1; m2; p2; y1; y2; y3; y4] =>
      re_day d1 d2 && (p1 =? 46)%N && re_month m1 m2 && (p2 =? 46)%N
      && forallb isdecimal_char [y1; y2; y3; y4]
  | _ => false
  end.

(** The directives of [strptime].  Each gives, in the order in which the
    pattern tries its alternatives, the digits read and the input left.
    [%d] is [3[0-1]|[1-2]\d|0[1-9]|[1-9]| [1-9]], [%m] is
    [1[0-2]|0[1-9]|[1-9]], [%Y] is [\d\d\d\d]. *)
Definition directive_d (s : str) : list (str * str) :=
  match s with
  | a :: b :: t =>
      (if (a =? 51)%N && in_range 48 49 b then [([a; b], t)] else [])
      ++ (if in_range 49 50 a && isdecimal_char b then [([a; b], t)] else [])
      ++ (if (a =? 48)%N && in_range 49 57 b then [([a; b], t)] else [])
      ++ (if in_range 49 57 a then [([a], b :: t)] else [])
      ++ (if (a =? 32)%N && in_range 49 57 b then [([b], t)] else [])
  | [a] => if in_range 49 57 a then [([a], [])] else []
  | [] => []
  end.

Definition directive_m (s : str) : list (str * str) :=
  match s with
  | a :: b :: t =>
      (if (a =? 49)%N && in_range 48 50 b then [([a; b], t)] else [])
      ++ (if (a =? 48)%N && in_range 49 57 b then [([a; b], t)] else [])
      ++ (if in_range 49 57 a then [([a], b :: t)] else [])
  | [a] => if in_range 49 57 a then [([a], [])] else []
  | [] => []
  end.

Definition directive_Y (s : str) : list (str * str) :=
  match s with
  | a :: b :: c :: d :: t =>
      if forallb isdecimal_char [a; b; c; d] then [([a; b; c; d], t)] else []
  | _ => []
  end.

Definition literal (c : N) (s : str) : list str :=
  match s with
  | x :: t => if (x =? c)%N then [t] else []
  | [] => []
  end.

(** The matches of the pattern of ["%d.%m.%Y"] at the start of [s], in
    the order of the backtracking search; [re.match] returns the first. *)
Definition strptime_matches (s : str) : list (str * str * str * str) :=
  flat_map (fun '(d, s1) =>
    flat_map (fun s2 =>
      flat_map (fun '(m, s3) =>
        flat_map (fun s4 =>
          map (fun '(y, rest) => (d, m, y, rest)) (directive_Y s4))
          (literal 46 s3))
        (directive_m s2))
      (literal 46 s1))
    (directive_d s).

(** [int] on a string of decimal digits. *)
Definition int (digits : str) : Z :=
  fold_left (fun acc c => 10 * acc + decimal_value c) digits 0.

(** [datetime.strptime(s, "%d.%m.%Y")], as a date: the time of day of
    the result is midnight. *)
Definition strptime_dmY (s : str) : result date :=
  match strptime_matches s with
  | [] =>
      Raise (ValueError
               (py "time data '" ++ s ++ py "' does not match format '%d.%m.%Y'"))
  | (d, m, y, rest) :: _ =>
      if is_empty rest then date_new (int y) (int m) (int d)
      else Raise (ValueError (py "unconverted data remains: " ++ rest))
  end.

(** [Birthday.__init__]: any [ValueError] becomes the one of the class. *)
Definition Birthday_init (value : str) : result date :=
  match (if birthday_re value then strptime_dmY value else Raise InvalidDate) with
  | Raise (ValueError _) => Raise InvalidDate
  | r => r
  end.

End BirthdayField.

(** ** Record *)

Record record : Type := mkRecord {
  name : str;                 (* [self.name.value] *)
  phones : list str;          (* the [value] of each [Phone] of [self.phones] *)
  birthday : option date      (* [self.birthday.value], or [None] *)
}.

Section RecordOps.
Context {U : UnicodeData}.

(** [Record.__init__]. *)
Definition Record_init (n : str) : result record :=
  v <- Name_init n ;; Ok (mkRecord v [] None).

(** [Record.add_phone]. *)
Definition add_phone (r : record) (phone : str) : result record :=
  p <- Phone_init phone ;; Ok (mkRecord (name r) (phones r ++ [p]) (birthday r)).

(** [Record.delete_phone]: the first phone equal to [phone] is removed. *)
Fixpoint remove_first (ps : list str) (phone : str) : option (list str) :=
  match ps with
  | [] => None
  | p :: rest =>
      if str_eqb p phone then Some rest
      else option_map (cons p) (remove_first rest phone)
  end.

Definition delete_phone (r : record) (phone : str) : bool * record :=
  match remove_first (phones r) phone with
  | Some ps => (true, mkRecord (name r) ps (birthday r))
  | None => (false, r)
  end.

(** [Record.edit_phone]: the loop over [enumerate(self.phones)]; [Some]
    is the list after the assignment [self.phones[i] = Phone(new_phone)],
    [None] the end of the loop without a match. *)
Fixpoint edit_phone_loop (ps : list str) (old_phone new_phone : str)
  : result (option (list str)) :=
  match ps with
  | [] => Ok None
  | p :: rest =>
      if str_eqb p old_phone
      then v <- Phone_init new_phone ;; Ok (Some (v :: rest))
      else o <- edit_phone_loop rest old_phone new_phone ;;
           Ok (option_map (cons p) o)
  end.

Definition edit_phone (r : record) (old_phone new_phone : str)
  : result (bool * record) :=
  o <- edit_phone_loop (phones r) old_phone new_phone ;;
  match o with
  | Some ps => Ok (true, mkRecord (name r) ps (birthday r))
  | None => Ok (false, r)
  end.

(** [Record.add_birthday]. *)
Definition add_birthday (r : record) (b : str) : result record :=
  d <- Birthday_init b ;; Ok (mkRecord (name r) (phones r) (Some d)).

End RecordOps.

(** ** AddressBook

    [self.data], a dict in insertion order. *)

Definition dict (V : Type) : Type := list (str * V).

Fixpoint dict_get {V} (d : dict V) (k : str) : option V :=
  match d with
  | [] => None
  | (k', v) :: t => if str_eqb k' k then Some v else dict_get t k
  end.

(** [d[k] = v]: an existing key keeps its place, a new one goes last. *)
Fixpoint dict_set {V} (d : dict V) (k : str) (v : V) : dict V :=
  match d with
  | [] => [(k, v)]
  | (k', v') :: t =>
      if str_eqb k' k then (k', v) :: t else (k', v') :: dict_set t k v
  end.

(** [del d[k]]. *)
Fixpoint dict_del {V} (d : dict V) (k : str) : dict V :=
  match d with
  | [] => []
  | (k', v) :: t => if str_eqb k' k then t else (k', v) :: dict_del t k
  end.

Definition keys {V} (d : dict V) : list str := map fst d.
Definition values {V} (d : dict V) : list V := map snd d.

Definition AddressBook : Type := dict record.

Definition AddressBook_init : AddressBook := [].

(** [AddressBook.add_record]. *)
Definition add_record (book : AddressBook) (r : record) : AddressBook :=
  dict_set book (name r) r.

(** [AddressBook.find]. *)
Definition find (book : AddressBook) (n : str) : option record :=
  dict_get book n.

(** [AddressBook.delete]. *)
Definition delete (book : AddressBook) (n : str) : AddressBook :=
  match dict_get book n with
  | Some _ => dict_del book n
  | None => book
  end.

(** An element of the list that [get_upcoming_birthdays] returns. *)
Record entry : Type := mkEntry {
  entry_name : str;
  congratulation_date : str;
  entry_phone : str
}.

(** The body of the loop of [get_upcoming_birthdays] for one record:
    the entry appended to [upcoming], if any. *)
Definition upcoming_step (today : date) (r : record) : result (option entry) :=
  match birthday r with
  | None => Ok None
  | Some bday =>
      upcoming_bday <- replace_year bday (year today) ;;
      upcoming_bday <- (if date_ltb upcoming_bday today
                        then replace_year bday (year today + 1)
                        else Ok upcoming_bday) ;;
      let diff := days_between upcoming_bday today in
      if (0 <=? diff) && (diff <? 7) then
        upcoming_bday <- (if weekday upcoming_bday =? 5
                          then date_add upcoming_bday 2
                          else if weekday upcoming_bday =? 6
                          then date_add upcoming_bday 1
                          else Ok upcoming_bday) ;;
        let phone := match phones r with
                     | p :: _ => p
                     | [] => py " No phone "
                     end in
        Ok (Some (mkEntry (name r) (strftime_dmY upcoming_bday) phone))
      else Ok None
  end.

Fixpoint upcoming_loop (today : date) (records : list record)
  (upcoming : list entry) : result (list entry) :=
  match records with
  | [] => Ok upcoming
  | r :: rest =>
      o <- upcoming_step today r ;;
      upcoming_loop today rest
        (match o with Some e => upcoming ++ [e] | None => upcoming end)
  end.

(** [AddressBook.get_upcoming_birthdays]; [today] stands for
    [datetime.today().date()]. *)
Definition get_upcoming_birthdays (book : AddressBook) (today : date)
  : result (list entry) :=
  upcoming_loop today (values book) [].

(** ** Persistence *)

(** A value that [json.load] returns. *)
#[local] Set Warnings "-register-all".
Inductive json : Type :=
| JNull
| JBool (b : bool)
| JInt (z : Z)
| JFloat (nonzero : bool)
| JStr (s : str)
| JList (l : list json)
| JDict (l : dict json).

(** What a file holds: the text written by [json.dump], the bytes
    written by [pickle.dump] of a book, or anything else. *)
Inductive file : Type :=
| JsonText (j : json)
| Pickled (book : AddressBook)
| Other (bytes : list N).

(** The files by name. *)
Definition filesystem : Type := dict file.

Definition PHONEBOOK_FILE : str := py "addressbook.pkl".

(** [save_address_book]: the value stored for one record, and the
    dict built by the loop over [book.data.items()]. *)
Definition saved_info (r : record) : json :=
  JDict [(py "phones", JList (map JStr (phones r)));
         (py "birthday",
          match birthday r with
          | Some b => JStr (strftime_dmY b)
          | None => JNull
          end)].

Definition data_to_save (book : AddressBook) : json :=
  JDict (map (fun '(n, r) => (n, saved_info r)) book).

Definition save_address_book (book : AddressBook) (fs : filesystem)
  (filename : str) : filesystem :=
  dict_set fs filename (JsonText (data_to_save book)).

(** The truth value of a loaded value. *)
Definition truthy (j : json) : bool :=
  match j with
  | JNull => false
  | JBool b => b
  | JInt z => negb (z =? 0)
  | JFloat nz => nz
  | JStr s => negb (is_empty s)
  | JList l => match l with [] => false | _ => true end
  | JDict l => match l with [] => false | _ => true end
  end.

(** The items that a [for] loop over a loaded value visits. *)
Definition iterate (j : json) : result (list json) :=
  match j with
  | JList l => Ok l
  | JStr s => Ok (map (fun c => JStr [c]) s)
  | JDict l => Ok (map JStr (keys l))
  | _ => Raise TypeError
  end.

(** [info.get(key, default)]. *)
Definition json_get (info : json) (key : str) (default : json) : result json :=
  match info with
  | JDict l => Ok (match dict_get l key with Some v => v | None => default end)
  | _ => Raise AttributeError
  end.

Definition as_str (j : json) : result str :=
  match j with
  | JStr s => Ok s
  | _ => Raise TypeError
  end.

Section Persistence.
Context {U : UnicodeData}.

Fixpoint load_phones (r : record) (ps : list json) : result record :=
  match ps with
  | [] => Ok r
  | phone :: rest =>
      p <- as_str phone ;;
      r' <- add_phone r p ;;
      load_phones r' rest
  end.

(** The body of the loop over [data_loaded.items()]. *)
Definition load_item (book : AddressBook) (n : str) (info : json)
  : result AddressBook :=
  r <- Record_init n ;;
  ps <- json_get info (py "phones") (JList []) ;;
  ps <- iterate ps ;;
  r <- load_phones r ps ;;
  b <- json_get info (py "birthday") JNull ;;
  r <- (if truthy b
        then (v <- as_str b ;; add_birthday r v)
        else Ok r) ;;
  Ok (add_record book r).

Fixpoint load_items (book : AddressBook) (items : dict json)
  : result AddressBook :=
  match items with
  | [] => Ok book
  | (n, info) :: rest =>
      book' <- load_item book n info ;;
      load_items book' rest
  end.

(** [json.load] on an open file. *)
Definition json_load (f : file) : result json :=
  match f with
  | JsonText j => Ok j
  | _ => Raise (ValueError (py "Expecting value"))
  end.

(** [load_address_book]. *)
Definition load_address_book (fs : filesystem) (filename : str)
  : result AddressBook :=
  match dict_get fs filename with
  | Some f =>
      data_loaded <- json_load f ;;
      match data_loaded with
      | JDict items => load_items AddressBook_init items
      | _ => Raise AttributeError
      end
  | None => Ok AddressBook_init
  end.

End Persistence.

(** [save_data] and [load_data], the pickle back end. *)
Definition save_data (book : AddressBook) (fs : filesystem) (filename : str)
  : filesystem :=
  dict_set fs filename (Pickled book).

Definition open_rb (fs : filesystem) (filename : str) : result file :=
  match dict_get fs filename with
  | Some f => Ok f
  | None => Raise FileNotFoundError
  end.

Definition pickle_load (f : file) : result AddressBook :=
  match f with
  | Pickled book => Ok book
  | _ => Raise UnpicklingError
  end.

Definition load_data (fs : filesystem) (filename : str) : result AddressBook :=
  match (f <- open_rb fs filename ;; pickle_load f) with
  | Raise FileNotFoundError => Ok AddressBook_init
  | r => r
  end.

(** ** Command handlers *)

Definition ESC : N := 27.
Definition Fore_BLUE : str := ESC :: py "[34m".
Definition Fore_GREEN : str := ESC :: py "[32m".
Definition Fore_RED : str := ESC :: py "[31m".
Definition Fore_YELLOW : str := ESC :: py "[33m".
Definition Fore_WHITE : str := ESC :: py "[37m".
Definition Style_RESET_ALL : str := ESC :: py "[0m".

(** [dir_file_color]. *)
Definition dir_file_color (lvl message : str) : str :=
  if str_eqb lvl (py "CHANGE") then Fore_BLUE ++ message ++ Style_RESET_ALL
  else if str_eqb lvl (py "ADD") then Fore_GREEN ++ message ++ Style_RESET_ALL
  else if str_eqb lvl (py "DELETE") then Fore_RED ++ message ++ Style_RESET_ALL
  else if str_eqb lvl (py "WARN") then Fore_YELLOW ++ message ++ Style_RESET_ALL
  else Fore_WHITE ++ message ++ Style_RESET_ALL.

(** A handler returns its reply, or raises, and leaves the book in the
    state reached at that point. *)
Definition outcome : Type := (result str * AddressBook)%type.

(** The decorator [input_error]; the text of a [KeyError] is the [repr]
    of its message. *)
Definition input_error (out : outcome) : outcome :=
  match out with
  | (Raise (ValueError ve), book) =>
      (Ok (dir_file_color (py "WARN")
             (py "Value Error: " ++ ve
              ++ py ", please use 'help' command for more details")), book)
  | (Raise (KeyError ke), book) =>
      (Ok (dir_file_color (py "WARN")
             (py "Key Error: '" ++ ke ++ py "'")), book)
  | (Raise (IndexError ie), book) =>
      (Ok (dir_file_color (py "WARN") (py "Index Error: " ++ ie)), book)
  | _ => out
  end.

(** The [ValueError] of [name, phone, *_ = args] on a short list. *)
Definition unpack_error (expected got : nat) : exn :=
  ValueError (py "not enough values to unpack (expected at least "
              ++ str_of_Z (Z.of_nat expected) ++ py ", got "
              ++ str_of_Z (Z.of_nat got) ++ py ")").

Section Handlers.
Context {U : UnicodeData}.

(** The body of [add_contact].  [record] is the object stored in the book
    under the key that goes with it: [name] when [find] returned it, its
    own name when it has just been added; [add_phone] on it is an update
    of that entry. *)
Definition add_contact_body (args : list str) (book : AddressBook) : outcome :=
  match args with
  | n :: phone :: _ =>
      match find book n with
      | Some record =>
          let message := py "Contact updated." in
          if negb (is_empty phone) then
            match add_phone record phone with
            | Ok record' =>
                (Ok (dir_file_color (py "ADD") message), dict_set book n record')
            | Raise e => (Raise e, book)
            end
          else (Ok (dir_file_color (py "ADD") message), book)
      | None =>
          match Record_init n with
          | Raise e => (Raise e, book)
          | Ok record =>
              let book := add_record book record in
              let message := py "Contact added." in
              if negb (is_empty phone) then
                match add_phone record phone with
                | Ok record' =>
                    (Ok (dir_file_color (py "ADD") message),
                     dict_set book (name record) record')
                | Raise e => (Raise e, book)
                end
              else (Ok (dir_file_color (py "ADD") message), book)
          end
      end
  | _ => (Raise (unpack_error 2 (length args)), book)
  end.

(** [add_contact], decorated. *)
Definition add_contact (args : list str) (book : AddressBook) : outcome :=
  input_error (add_contact_body args book).

End Handlers.

(** ** The other handlers, the printing and the command loop *)

Definition Fore_CYAN : str := ESC :: py "[36m".
Definition Fore_MAGENTA : str := ESC :: py "[35m".

(** [sep.join(items)]. *)
Fixpoint join (sep : str) (items : list str) : str :=
  match items with
  | [] => []
  | x :: rest =>
      match rest with
      | [] => x
      | _ => x ++ sep ++ join sep rest
      end
  end.

(** The format [{s:<15}]: spaces after [s] up to the width. *)
Definition ljust (width : nat) (s : str) : str :=
  s ++ repeat 32%N (width - length s).

(** ['; '.join(p.value for p in record.phones) if record.phones else
    "No phones"], and the like for the birthday. *)
Definition phones_text (r : record) : str :=
  match phones r with
  | [] => py "No phones"
  | ps => join (py "; ") ps
  end.

Definition birthday_text (r : record) : str :=
  match birthday r with
  | Some b => strftime_dmY b
  | None => py "No birthday"
  end.

(** [Record.__str__]. *)
Definition Record_str (r : record) : str :=
  py "Name: " ++ name r ++ py ", Phones: " ++ phones_text r
  ++ py ", Birthday: " ++ birthday_text r.

Section MoreHandlers.
Context {U : UnicodeData}.

(** [change_contact].  The record that [edit_phone] has worked on is the
    object stored under [name]. *)
Definition change_contact_body (args : list str) (book : AddressBook) : outcome :=
  match args with
  | n :: old_phone :: new_phone :: _ =>
      match find book n with
      | None => (Raise (KeyError (py "Contact not found.")), book)
      | Some record =>
          match edit_phone record old_phone new_phone with
          | Raise e => (Raise e, book)
          | Ok (found, record') =>
              (Ok (if found
                   then dir_file_color (py "CHANGE") (py "Contact updated.")
                   else dir_file_color (py "WARN") (py "Old phone number not found.")),
               dict_set book n record')
          end
      end
  | _ => (Raise (unpack_error 3 (length args)), book)
  end.

Definition change_contact (args : list str) (book : AddressBook) : outcome :=
  input_error (change_contact_body args book).

(** [show_contact]. *)
Definition show_contact_body (args : list str) (book : AddressBook) : outcome :=
  match args with
  | n :: _ =>
      match find book n with
      | None => (Raise (KeyError (py "Contact not found.")), book)
      | Some record => (Ok (name record ++ py ": " ++ phones_text record), book)
      end
  | _ => (Raise (unpack_error 1 (length args)), book)
  end.

Definition show_contact (args : list str) (book : AddressBook) : outcome :=
  input_error (show_contact_body args book).

(** The handler [add_birthday]. *)
Definition add_birthday_body (args : list str) (book : AddressBook) : outcome :=
  match args with
  | n :: b :: _ =>
      match find book n with
      | Some record =>
          match add_birthday record b with
          | Ok record' =>
              (Ok (dir_file_color (py "ADD")
                     (py "Birthday for " ++ n ++ py " added/updated.")),
               dict_set book n record')
          | Raise e => (Raise e, book)
          end
      | None =>
          match Record_init n with
          | Raise e => (Raise e, book)
          | Ok record =>
              let book := add_record book record in
              match add_birthday record b with
              | Ok record' =>
                  (Ok (dir_file_color (py "ADD")
                         (py "Birthday for " ++ n ++ py " added/updated.")),
                   dict_set book (name record) record')
              | Raise e => (Raise e, book)
              end
          end
      end
  | _ => (Raise (unpack_error 2 (length args)), book)
  end.

Definition add_birthday_handler (args : list str) (book : AddressBook) : outcome :=
  input_error (add_birthday_body args book).

(** [show_birthday]. *)
Definition show_birthday_body (args : list str) (book : AddressBook) : outcome :=
  match args with
  | n :: _ =>
      match find book n with
      | None => (Raise (KeyError (py "Contact not found.")), book)
      | Some record =>
          match birthday record with
          | None => (Ok (py "Birthday for " ++ n ++ py " is not set."), book)
          | Some b =>
              (Ok (n ++ py "'s birthday is on " ++ strftime_dmY b ++ py "."), book)
          end
      end
  | _ => (Raise (unpack_error 1 (length args)), book)
  end.

Definition show_birthday (args : list str) (book : AddressBook) : outcome :=
  input_error (show_birthday_body args book).

(** [delete_contact]. *)
Definition delete_contact_body (args : list str) (book : AddressBook) : outcome :=
  match args with
  | n :: _ =>
      match find book n with
      | None => (Raise (KeyError (py "Contact not found.")), book)
      | Some _ =>
          (Ok (dir_file_color (py "DELETE") (py "Contact " ++ n ++ py " deleted.")),
           delete book n)
      end
  | _ => (Raise (unpack_error 1 (length args)), book)
  end.

Definition delete_contact (args : list str) (book : AddressBook) : outcome :=
  input_error (delete_contact_body args book).

End MoreHandlers.

(** One line of the reply of [birthdays]. *)
Definition birthday_line (e : entry) : str :=
  py " To congrat " ++ Fore_YELLOW ++ ljust 15 (entry_name e)
  ++ Fore_WHITE ++ py " -> call by: " ++ Fore_CYAN ++ entry_phone e
  ++ Fore_WHITE ++ py " -> on: " ++ Fore_MAGENTA ++ congratulation_date e
  ++ Style_RESET_ALL.

(** [birthdays]; [today] stands for the date of the call. *)
Definition birthdays_body (today : date) (args : list str) (book : AddressBook)
  : outcome :=
  match get_upcoming_birthdays book today with
  | Raise e => (Raise e, book)
  | Ok upcoming =>
      match upcoming with
      | [] => (Ok (py "No upcoming birthdays in the next week."), book)
      | _ => (Ok (join [10%N] (map birthday_line upcoming)), book)
      end
  end.

Definition birthdays (today : date) (args : list str) (book : AddressBook)
  : outcome :=
  input_error (birthdays_body today args book).

(** [print_contacts]: the lines printed. *)
Definition contacts_header : str :=
  ljust 15 (py "Name") ++ py " " ++ ljust 15 (py "Birthday") ++ py " " ++ py "Phones".

Definition contact_line (r : record) : str :=
  Fore_YELLOW ++ ljust 15 (name r) ++ Style_RESET_ALL ++ py " "
  ++ Fore_MAGENTA ++ ljust 15 (birthday_text r) ++ Style_RESET_ALL ++ py " "
  ++ Fore_CYAN ++ phones_text r ++ Style_RESET_ALL.

Definition print_contacts (book : AddressBook) : list str :=
  match book with
  | [] => [py "No contacts in the address book."]
  | _ =>
      [contacts_header; repeat 45%N (length contacts_header + 4)]
      ++ map contact_line (values book)
  end.

(** [HELP_TEXT]. *)
Definition HELP_TEXT : str :=
  Fore_GREEN ++ py "Available commands:" ++ [10%N]
  ++ Fore_WHITE ++ py "hello " ++ Fore_GREEN ++ py "- Greets you" ++ [10%N]
  ++ Fore_WHITE ++ py "add " ++ Fore_YELLOW ++ py "[name] " ++ Fore_CYAN
  ++ py "[phone] " ++ Fore_GREEN
  ++ py "- Add a new contact or update phone for an existing contact" ++ [10%N]
  ++ Fore_WHITE ++ py "change " ++ Fore_YELLOW ++ py "[name] " ++ Fore_CYAN
  ++ py "[old phone] " ++ Fore_CYAN ++ py "[new phone] " ++ Fore_GREEN
  ++ py "- Change phone number for a contact" ++ [10%N]
  ++ Fore_WHITE ++ py "phone " ++ Fore_YELLOW ++ py "[name] " ++ Fore_GREEN
  ++ py "- Show phone numbers for a contact" ++ [10%N]
  ++ Fore_WHITE ++ py "all " ++ Fore_GREEN ++ py "- Show all contacts" ++ [10%N]
  ++ Fore_WHITE ++ py "delete " ++ Fore_YELLOW ++ py "[name] " ++ Fore_GREEN
  ++ py "- Delete a contact" ++ [10%N]
  ++ Fore_WHITE ++ py "add-birthday " ++ Fore_YELLOW ++ py "[name] "
  ++ Fore_MAGENTA ++ py "[DD.MM.YYYY] " ++ Fore_GREEN
  ++ py "- Add or update birthday for a contact" ++ [10%N]
  ++ Fore_WHITE ++ py "show-birthday " ++ Fore_YELLOW ++ py "[name] "
  ++ Fore_GREEN ++ py "- Show birthday for a contact" ++ [10%N]
  ++ Fore_WHITE ++ py "birthdays " ++ Fore_GREEN
  ++ py "- Show upcoming birthdays in the next week and congrats help" ++ [10%N]
  ++ Fore_WHITE ++ py "help " ++ Fore_GREEN ++ py "- Show this help message"
  ++ [10%N]
  ++ Fore_WHITE ++ py "close " ++ Fore_GREEN ++ py "or " ++ Fore_WHITE
  ++ py "exit " ++ Fore_GREEN ++ py "- Exit the program" ++ Style_RESET_ALL.

(** ** Reading a command

    [str.split] and [str.lower] read the character database too: the
    characters that separate words and the lower-case form of a string. *)

Class UnicodeText : Type := {
  (** the characters that [str.split()] separates on *)
  isspace_char : N -> bool;
  (** [str.lower] *)
  lower : str -> str
}.

Section Commands.
Context {U : UnicodeData} {T : UnicodeText}.

(** [str.split()]: the maximal runs of characters that are not white
    space; [word] holds the run being read, last character first. *)
Fixpoint split_from (s : str) (word : str) : list str :=
  match s with
  | [] => match word with [] => [] | _ => [rev word] end
  | c :: t =>
      if isspace_char c
      then match word with
           | [] => split_from t []
           | _ => rev word :: split_from t []
           end
      else split_from t (c :: word)
  end.

Definition split (s : str) : list str := split_from s [].

(** [parse_input]: [parts[0]] raises [IndexError] on an empty list. *)
Definition parse_input (user_input : str) : result (str * list str) :=
  match split user_input with
  | [] => Raise (IndexError (py "list index out of range"))
  | p :: rest => Ok (lower p, rest)
  end.

(** One turn of the loop of [main] on the line read: the strings
    passed to [print], the book and the files after it, and whether the
    loop was left.  An exception that no handler catches ends the program. *)
Record turn : Type := mkTurn {
  printed : list str;
  book_after : AddressBook;
  files_after : filesystem;
  stopped : bool
}.

Definition print_outcome (o : outcome) (fs : filesystem) : result turn :=
  match o with
  | (Ok reply, book) => Ok (mkTurn [reply] book fs false)
  | (Raise e, _) => Raise e
  end.

Definition main_step (today : date) (user_input : str) (book : AddressBook)
  (fs : filesystem) : result turn :=
  parsed <- parse_input user_input ;;
  let '(command, args) := parsed in
  if str_eqb command (py "close") || str_eqb command (py "exit")
     || str_eqb command (py "quit")
  then Ok (mkTurn [dir_file_color (py "DELETE") (py "Phonebook is saved. Good bye!")]
             book (save_data book fs PHONEBOOK_FILE) true)
  else if str_eqb command (py "hello")
  then Ok (mkTurn [py "How can I help you?"] book fs false)
  else if str_eqb command (py "help")
  then Ok (mkTurn [HELP_TEXT] book fs false)
  else if str_eqb command (py "add")
  then print_outcome (add_contact args book) fs
  else if str_eqb command (py "change")
  then print_outcome (change_contact args book) fs
  else if str_eqb command (py "phone")
  then print_outcome (show_contact args book) fs
  else if str_eqb command (py "all")
  then Ok (mkTurn (print_contacts book) book fs false)
  else if str_eqb command (py "add-birthday")
  then print_outcome (add_birthday_handler args book) fs
  else if str_eqb command (py "show-birthday")
  then print_outcome (show_birthday args book) fs
  else if str_eqb command (py "birthdays")
  then print_outcome (birthdays today args book) fs
  else if str_eqb command (py "delete")
  then print_outcome (delete_contact args book) fs
  else Ok (mkTurn [py "Invalid command."] book fs false).

(** The loop of [main] on the lines that [input] returns, until the loop
    is left or the lines are used up. *)
Fixpoint main_loop (today : date) (inputs : list str) (book : AddressBook)
  (fs : filesystem) : result turn :=
  match inputs with
  | [] => Ok (mkTurn [] book fs false)
  | user_input :: rest =>
      t <- main_step today user_input book fs ;;
      if stopped t then Ok t
      else
        t' <- main_loop today rest (book_after t) (files_after t) ;;
        Ok (mkTurn (printed t ++ printed t') (book_after t') (files_after t')
              (stopped t'))
  end.

(** The start of [main]: the book loaded and the lines printed before the
    first prompt. *)
Definition main_start (fs : filesystem) : result (list str * AddressBook) :=
  book <- load_data fs PHONEBOOK_FILE ;;
  Ok ([dir_file_color (py "ADD") (py "Welcome to the assistant bot!");
       dir_file_color (py "CHANGE") (py "Type 'help' to see available commands.");
       [];
       py "Your phonebook, sir (or ma'am) ;)"]
      ++ print_contacts book, book).

End Commands.

(** The white space and the lower case of the Basic Latin block. *)
Definition ascii_isspace (c : N) : bool :=
  in_range 9 13 c || in_range 28 32 c.

#[global] Instance sample_text : UnicodeText := {|
  isspace_char := ascii_isspace;
  lower := map ascii_lower
|}.

(** ** The specification of the upcoming birthdays

    The list that section 4.3 of the specification describes, written
    from its words. *)

Definition this_year (today bday : date) : date :=
  mkdate (year today) (month bday) (day bday).

Definition next_year (today bday : date) : date :=
  mkdate (year today + 1) (month bday) (day bday).

(** Steps 1 and 2: the occurrence. *)
Definition occurrence (today bday : date) : date :=
  if date_ltb (this_year today bday) today
  then next_year today bday
  else this_year today bday.

(** Steps 3 and 4: the window. *)
Definition in_window (today bday : date) : bool :=
  let diff := toordinal (occurrence today bday) - toordinal today in
  (0 <=? diff) && (diff <? 7).

(** Step 5: the congratulation date. *)
Definition shifted (occ : date) : date :=
  if weekday occ =? 5 then days_later 2 occ
  else if weekday occ =? 6 then days_later 1 occ
  else occ.

(** Step 6: the phone shown. *)
Definition first_phone (r : record) : str :=
  match phones r with
  | p :: _ => p
  | [] => py " No phone "
  end.

Definition spec_entry (today : date) (r : record) : option entry :=
  match birthday r with
  | Some bday =>
      if in_window today bday
      then Some (mkEntry (name r)
                   (strftime_dmY (shifted (occurrence today bday)))
                   (first_phone r))
      else None
  | None => None
  end.

Definition upcoming_spec (book : AddressBook) (today : date) : list entry :=
  flat_map (fun r => match spec_entry today r with
                     | Some e => [e]
                     | None => []
                     end)
           (values book).

(** The occurrence of a birthday exists: its month and day make a date in
    the year of [today], and in the next year when that one is needed. *)
Definition occurrence_defined (today bday : date) : bool :=
  valid_date (this_year today bday)
  && (if date_ltb (this_year today bday) today
      then valid_date (next_year today bday)
      else true).

(** The congratulation date exists: a shift does not pass 31 December
    9999. *)
Definition shift_defined (occ : date) : bool :=
  if weekday occ =? 5 then toordinal occ + 2 <=? MAXORDINAL
  else if weekday occ =? 6 then toordinal occ + 1 <=? MAXORDINAL
  else true.

(** The turn of the loop for [r] raises nothing. *)
Definition step_defined (today : date) (r : record) : bool :=
  match birthday r with
  | Some bday =>
      occurrence_defined today bday
      && (if in_window today bday
          then shift_defined (occurrence today bday)
          else true)
  | None => true
  end.

(** ** Well-formed books

    What the constructors guarantee of the fields of a record, and that a
    record is stored under its name. *)

Section WellFormed.
Context {U : UnicodeData}.

Definition wf_record (r : record) : Prop :=
  isalpha (name r) = true
  /\ Forall (fun p => phone_re p = true) (phones r)
  /\ (forall b, birthday r = Some b -> valid_date b = true).

Definition wf_book (book : AddressBook) : Prop :=
  NoDup (keys book)
  /\ Forall (fun kr => fst kr = name (snd kr) /\ wf_record (snd kr)) book.


End WellFormed.


(** ** A character database to run the code

    The Basic Latin block and the Arabic-Indic digits U+0660 to U+0669,
    classified as the Unicode database classifies them.  The inputs
    evaluated below hold no other character. *)

Definition is_arabic_indic_digit (c : N) : bool := in_range 1632 1641 c.

Definition sample_isalpha (c : N) : bool := is_ascii_upper c || is_ascii_lower c.

Definition sample_isdecimal (c : N) : bool :=
  is_ascii_digit c || is_arabic_indic_digit c.

Definition sample_decimal_value (c : N) : Z :=
  if is_ascii_digit c then Z.of_N c - 48
  else if is_arabic_indic_digit c then Z.of_N c - 1632
  else 0.

#[global] Instance sample_ucd : UnicodeData := {|
  isalpha_char := sample_isalpha;
  isdecimal_char := sample_isdecimal;
  decimal_value := sample_decimal_value;
  capitalize := ascii_capitalize;
  decimal_ascii := ltac:(intros c H; unfold sample_isdecimal; rewrite H; reflexivity);
  decimal_value_ascii :=
    ltac:(intros c H; unfold sample_decimal_value; rewrite H; reflexivity);
  decimal_value_bounds :=
    ltac:(intros c; unfold sample_isdecimal, sample_decimal_value,
            is_ascii_digit, is_arabic_indic_digit, in_range;
          destruct (48 <=? c)%N eqn:A; destruct (c <=? 57)%N eqn:B;
          destruct (1632 <=? c)%N eqn:C; destruct (c <=? 1641)%N eqn:D;
          simpl; intros H; try discriminate H;
          repeat match goal with
                 | E : (_ <=? _)%N = true |- _ => apply N.leb_le in E
                 | E : (_ <=? _)%N = false |- _ => apply N.leb_gt in E
                 end; lia);
  capitalize_ascii := fun s _ => eq_refl
|}.

(** The invariant of section 3 of the specification: every key is the
    capitalized form of the name of its record. *)
Definition keys_canonical {U : UnicodeData} (book : AddressBook) : Prop :=
  Forall (fun kr => fst kr = capitalize (name (snd kr))) book.

(** Ten Arabic-Indic digits. *)
Definition arabic_indic_phone : str :=
  [1632; 1633; 1634; 1635; 1636; 1637; 1638; 1639; 1640; 1641]%N.

(** The record of the example of section 8. *)
Definition two_phones : record :=
  mkRecord (py "Alice") [py "1111111111"; py "2222222222"] None.

(** A record as [Record("alice")] builds it. *)
Definition alice : record := mkRecord (py "alice") [] None.

(** A book with a birthday on 29 February, and a day of a year that is
    not a leap year. *)
Definition leap_day_book : AddressBook :=
  [(py "Bob", mkRecord (py "Bob") [py "1234567890"] (Some (mkdate 1990 6 15)));
   (py "Eve", mkRecord (py "Eve") [] (Some (mkdate 2024 2 29)))].

Definition monday_10_june_2024 : date := mkdate 2024 6 10.
Definition first_of_march_2025 : date := mkdate 2025 3 1.

(** The pattern of the day on ASCII digits, where it needs nothing of the
    database. *)
Definition ascii_re_day (a b : N) : bool :=
  ((a =? 48)%N && in_range 49 57 b)
  || (in_range 49 50 a && is_ascii_digit b)
  || ((a =? 51)%N && in_range 48 49 b).

(** The book of the round-trip example of section 8, and a week in June
    2024 with a birthday on its Saturday and one two days before it. *)
Definition alice_1990 : record :=
  mkRecord (py "Alice") [py "1234567890"] (Some (mkdate 1990 6 15)).

Definition alice_book : AddressBook := [(py "Alice", alice_1990)].

Definition june_book : AddressBook :=
  [(py "Alice", alice_1990);
   (py "Bob", mkRecord (py "Bob") [] (Some (mkdate 1985 6 8)));
   (py "Carol", mkRecord (py "Carol") [py "0987654321"] None)].

(** The birthday of the record, when it has one, is in a year that
    [strftime] writes on four characters. *)
Definition four_digit_year (r : record) : bool :=
  match birthday r with
  | Some b => 1000 <=? year b
  | None => true
  end.

(** A book as [Record("Old")] with [add_birthday("15.06.0990")] and
    [add_record] build it. *)
Definition early_book : AddressBook :=
  [(py "Old", mkRecord (py "Old") [] (Some (mkdate 990 6 15)))].

(** The replies that [input_error] makes of a [ValueError] and of a
    [KeyError]. *)
Definition value_warning (msg : str) : str :=
  dir_file_color (py "WARN")
    (py "Value Error: " ++ msg
     ++ py ", please use 'help' command for more details").

Definition key_warning (msg : str) : str :=
  dir_file_color (py "WARN") (py "Key Error: '" ++ msg ++ py "'").

(** An outcome that [input_error] turns into a reply. *)
Definition caught (o : outcome) : Prop :=
  match fst o with
  | Ok _ | Raise (ValueError _) | Raise (KeyError _) | Raise (IndexError _) => True
  | Raise _ => False
  end.

(** A word of a line: not empty and without white space. *)
Definition is_word {T : UnicodeText} (w : str) : Prop :=
  w <> [] /\ forallb (fun c => negb (isspace_char c)) w = true.

(** * Properties *)

(** ** Strings and results *)

Lemma str_eqb_eq (a b : str) : str_eqb a b = true <-> a = b.
Proof.
  revert b; induction a as [|x a IH]; intros [|y b]; simpl;
    try (split; [discriminate | discriminate]); try tauto.
  rewrite andb_true_iff, N.eqb_eq, IH. split.
  - intros [-> ->]; reflexivity.
  - intros E; injection E; auto.
Qed.

Lemma str_eqb_refl (a : str) : str_eqb a a = true.
Proof. apply str_eqb_eq; reflexivity. Qed.

Lemma str_eqb_neq (a b : str) : str_eqb a b = false <-> a <> b.
Proof.
  rewrite <- str_eqb_eq. destruct (str_eqb a b); split; congruence.
Qed.

Lemma is_empty_nil (s : str) : is_empty s = true <-> s = [].
Proof. destruct s; simpl; split; congruence. Qed.

(** ** Name *)

Section NameFacts.
Context {U : UnicodeData}.

Lemma isalpha_spec (s : str) :
  isalpha s = true <-> s <> [] /\ forall c, In c s -> isalpha_char c = true.
Proof.
  unfold isalpha. rewrite andb_true_iff, negb_true_iff, forallb_forall.
  destruct s; simpl; split; intros [A B]; split; auto; congruence.
Qed.

(** The constructor accepts the non-empty strings of letters and stores
    the argument as it is. *)
Lemma Name_init_alpha (raw : str) :
  isalpha raw = true -> Name_init raw = Ok raw.
Proof.
  intros H. unfold Name_init, Name_validate.
  rewrite H. destruct raw; [discriminate H | reflexivity].
Qed.

Lemma Name_init_not_alpha (raw : str) :
  isalpha raw = false -> Name_init raw = Raise InvalidName.
Proof.
  intros H. unfold Name_init, Name_validate.
  rewrite H, orb_true_r. reflexivity.
Qed.

Lemma Name_init_Ok (raw v : str) :
  Name_init raw = Ok v <-> isalpha raw = true /\ v = raw.
Proof.
  destruct (isalpha raw) eqn:E.
  - rewrite (Name_init_alpha _ E). split.
    + intros H; injection H; auto.
    + intros [_ ->]; reflexivity.
  - rewrite (Name_init_not_alpha _ E). split.
    + discriminate.
    + intros [H _]; discriminate H.
Qed.

End NameFacts.

(** C2, at the input ["alice"]: the constructor succeeds, [validate]
    computes the capitalized form ["Alice"], and the value stored is the
    argument ["alice"], which differs from it. *)
Theorem Name_init_alice_not_capitalized :
  Name_validate (py "alice") = Ok (py "Alice")
  /\ Name_init (py "alice") = Ok (py "alice")
  /\ Name_init (py "alice") <> Ok (capitalize (py "alice")).
Proof.
  repeat split; try reflexivity.
  vm_compute. discriminate.
Qed.

(** ** Phone *)

Section PhoneFacts.
Context {U : UnicodeData}.

Lemma Phone_init_match (raw : str) :
  phone_re raw = true -> Phone_init raw = Ok raw.
Proof.
  intros H. unfold Phone_init, Phone_validate. rewrite H. reflexivity.
Qed.

Lemma Phone_init_no_match (raw : str) :
  phone_re raw = false -> Phone_init raw = Raise InvalidPhone.
Proof.
  intros H. unfold Phone_init, Phone_validate. rewrite H. reflexivity.
Qed.

Lemma Phone_init_Ok (raw v : str) :
  Phone_init raw = Ok v <-> phone_re raw = true /\ v = raw.
Proof.
  destruct (phone_re raw) eqn:E.
  - rewrite (Phone_init_match _ E). split.
    + intros H; injection H; auto.
    + intros [_ ->]; reflexivity.
  - rewrite (Phone_init_no_match _ E). split.
    + discriminate.
    + intros [H _]; discriminate H.
Qed.

Lemma phone_re_spec (raw : str) :
  phone_re raw = true
  <-> length raw = 10%nat /\ forall c, In c raw -> isdecimal_char c = true.
Proof.
  unfold phone_re. rewrite andb_true_iff, Nat.eqb_eq, forallb_forall.
  reflexivity.
Qed.

Lemma ascii_digits_decimal (raw : str) :
  forallb is_ascii_digit raw = true -> forallb isdecimal_char raw = true.
Proof.
  rewrite !forallb_forall. intros H c Hc. apply decimal_ascii, H, Hc.
Qed.

(** C8, amended: ten ASCII digits are accepted and stored unchanged; the
    strings accepted are exactly those of ten decimal digits in the sense
    of [\d], each stored unchanged; a string of another length, or with a
    character that is no such digit, fails with InvalidPhone. *)
Theorem Phone_init_spec (raw : str) :
  (length raw = 10%nat -> forallb is_ascii_digit raw = true ->
   Phone_init raw = Ok raw)
  /\ (forall v, Phone_init raw = Ok v <->
                length raw = 10%nat
                /\ (forall c, In c raw -> isdecimal_char c = true)
                /\ v = raw)
  /\ (length raw <> 10%nat \/ (exists c, In c raw /\ isdecimal_char c = false) ->
      Phone_init raw = Raise InvalidPhone).
Proof.
  split; [|split].
  - intros L D. apply Phone_init_match, phone_re_spec. split; [exact L|].
    apply forallb_forall, ascii_digits_decimal, D.
  - intros v. rewrite Phone_init_Ok, phone_re_spec. tauto.
  - intros H. apply Phone_init_no_match.
    destruct (phone_re raw) eqn:E; [|reflexivity].
    apply phone_re_spec in E. destruct E as [L D].
    destruct H as [H | [c [Hc Hd]]].
    + contradiction.
    + rewrite (D c Hc) in Hd. discriminate Hd.
Qed.

End PhoneFacts.

Lemma Phone_init_spec_witness :
  Phone_init (py "1234567890") = Ok (py "1234567890")
  /\ Phone_init (py "12345") = Raise InvalidPhone.
Proof.
  split.
  - apply (proj1 (Phone_init_spec (py "1234567890"))); reflexivity.
  - apply (proj2 (proj2 (Phone_init_spec (py "12345")))).
    left. simpl. lia.
Defined.

(** C8 as stated fails on ten Arabic-Indic digits: none of them is an
    ASCII digit, and the constructor accepts the string. *)
Lemma Phone_init_accepts_non_ascii_digits :
  (exists c, In c arabic_indic_phone /\ is_ascii_digit c = false)
  /\ Phone_init arabic_indic_phone = Ok arabic_indic_phone
  /\ Phone_init arabic_indic_phone <> Raise InvalidPhone.
Proof.
  split; [|split].
  - exists 1632%N. split; [left; reflexivity | reflexivity].
  - reflexivity.
  - discriminate.
Qed.

(** ** Record.edit_phone *)

Section EditPhone.
Context {U : UnicodeData}.

Lemma edit_phone_loop_absent (ps : list str) (old_phone new_phone : str) :
  ~ In old_phone ps -> edit_phone_loop ps old_phone new_phone = Ok None.
Proof.
  induction ps as [|p ps IH]; simpl; intros H; [reflexivity|].
  destruct (str_eqb p old_phone) eqn:E.
  - apply str_eqb_eq in E. tauto.
  - rewrite IH by tauto. reflexivity.
Qed.

Lemma edit_phone_loop_first (pre post : list str) (old_phone new_phone : str) :
  ~ In old_phone pre ->
  edit_phone_loop (pre ++ old_phone :: post) old_phone new_phone
  = (v <- Phone_init new_phone ;; Ok (Some (pre ++ v :: post))).
Proof.
  induction pre as [|p pre IH]; simpl; intros H.
  - rewrite str_eqb_refl. reflexivity.
  - destruct (str_eqb p old_phone) eqn:E.
    + apply str_eqb_eq in E. tauto.
    + rewrite IH by tauto. destruct (Phone_init new_phone); reflexivity.
Qed.

(** C3, amended: [new] is validated when, and only when, a stored phone
    equals [old], before the replacement.  With [old] first found after
    [pre]: a valid [new] takes its place and the answer is true, an
    invalid one raises InvalidPhone and nothing is replaced.  With [old]
    absent the record is unchanged and the answer is false, whatever
    [new] is. *)
Theorem edit_phone_spec (r : record) (old_phone new_phone : str) :
  (forall pre post,
      phones r = pre ++ old_phone :: post -> ~ In old_phone pre ->
      (phone_re new_phone = true ->
       edit_phone r old_phone new_phone
       = Ok (true, mkRecord (name r) (pre ++ new_phone :: post) (birthday r)))
      /\ (phone_re new_phone = false ->
          edit_phone r old_phone new_phone = Raise InvalidPhone))
  /\ (~ In old_phone (phones r) ->
      edit_phone r old_phone new_phone = Ok (false, r)).
Proof.
  split.
  - intros pre post E H. unfold edit_phone. rewrite E.
    rewrite (edit_phone_loop_first _ _ _ _ H). split; intros V.
    + rewrite (Phone_init_match _ V). reflexivity.
    + rewrite (Phone_init_no_match _ V). reflexivity.
  - intros H. unfold edit_phone.
    rewrite (edit_phone_loop_absent _ _ _ H). reflexivity.
Qed.

End EditPhone.

Lemma edit_phone_spec_witness :
  edit_phone two_phones (py "2222222222") (py "3333333333")
  = Ok (true, mkRecord (py "Alice") [py "1111111111"; py "3333333333"] None)
  /\ edit_phone two_phones (py "9999999999") (py "3333333333")
     = Ok (false, two_phones).
Proof.
  split.
  - apply (proj1 (edit_phone_spec two_phones (py "2222222222") (py "3333333333"))
             [py "1111111111"] []).
    + reflexivity.
    + simpl. intros [H | []]. discriminate H.
    + reflexivity.
  - apply (proj2 (edit_phone_spec two_phones (py "9999999999") (py "3333333333"))).
    simpl. intros [H | [H | []]]; discriminate H.
Defined.

(** C3 as stated fails when [old] is absent and [new] is invalid: the
    constructor rejects ["abc"], yet [edit_phone] returns false without
    raising, so [new] was not validated. *)
Lemma edit_phone_absent_skips_validation :
  Phone_init (py "abc") = Raise InvalidPhone
  /\ edit_phone two_phones (py "9999999999") (py "abc") = Ok (false, two_phones).
Proof. split; reflexivity. Qed.

(** ** load_data *)

(** C9: without a file of that name, [load_data] returns an empty book
    and raises nothing. *)
Theorem load_data_no_file (fs : filesystem) (filename : str) :
  dict_get fs filename = None ->
  load_data fs filename = Ok AddressBook_init.
Proof.
  intros H. unfold load_data, open_rb. rewrite H. reflexivity.
Qed.

Lemma load_data_no_file_witness :
  load_data [(py "contacts.json", Other [])] PHONEBOOK_FILE = Ok AddressBook_init.
Proof.
  apply load_data_no_file. reflexivity.
Defined.

(** The other cases: a pickled book is returned, any other failure is
    raised. *)
Lemma load_data_after_save (book : AddressBook) (fs : filesystem) (f : str) :
  load_data (save_data book fs f) f = Ok book.
Proof.
  unfold load_data, open_rb, save_data.
  assert (G : forall (d : filesystem) v, dict_get (dict_set d f v) f = Some v).
  { induction d as [|[k w] d IH]; intros v; simpl.
    - rewrite str_eqb_refl. reflexivity.
    - destruct (str_eqb k f) eqn:E; simpl; rewrite E; [reflexivity | apply IH]. }
  rewrite G. reflexivity.
Qed.

(** ** The keys of the book *)

(** C7, at the empty book and [Record("alice")]: the invariant holds
    before [add_record] and fails after it, the key being ["alice"] and
    the capitalized form of the name ["Alice"]. *)
Theorem add_record_breaks_keys_canonical :
  Record_init (py "alice") = Ok alice
  /\ keys_canonical AddressBook_init
  /\ add_record AddressBook_init alice = [(py "alice", alice)]
  /\ capitalize (name alice) = py "Alice"
  /\ ~ keys_canonical (add_record AddressBook_init alice).
Proof.
  repeat split.
  - constructor.
  - intros H. inversion H as [|kr l Hk _]. vm_compute in Hk. discriminate Hk.
Qed.

(** ** Dictionaries *)

Lemma dict_set_absent {V} (d : dict V) (k : str) (v : V) :
  dict_get d k = None -> dict_set d k v = d ++ [(k, v)].
Proof.
  induction d as [|[k' v'] d IH]; simpl; intros H; [reflexivity|].
  destruct (str_eqb k' k); [discriminate H|]. rewrite IH by exact H. reflexivity.
Qed.

Lemma dict_get_set_same {V} (d : dict V) (k : str) (v : V) :
  dict_get (dict_set d k v) k = Some v.
Proof.
  induction d as [|[k' v'] d IH]; simpl.
  - rewrite str_eqb_refl. reflexivity.
  - destruct (str_eqb k' k) eqn:E; simpl; rewrite E; [reflexivity | exact IH].
Qed.

Lemma dict_get_None_keys {V} (d : dict V) (k : str) :
  dict_get d k = None <-> ~ In k (keys d).
Proof.
  induction d as [|[k' v'] d IH]; simpl; [tauto|].
  destruct (str_eqb k' k) eqn:E.
  - apply str_eqb_eq in E. split; [discriminate | tauto].
  - apply str_eqb_neq in E. tauto.
Qed.

(** ** add_contact *)

Section AddContact.
Context {U : UnicodeData}.

(** C10, amended: for a valid name that the book does not hold and a
    phone that is not valid, the handler leaves in the book a new record
    of that name without phones.  The phone is validated only when it is
    not empty: a phone that is not empty gets the validation error as
    reply, the empty phone the reply that the contact was added. *)
Theorem add_contact_invalid_phone
  (book : AddressBook) (n phone : str) (rest : list str) :
  find book n = None ->
  isalpha n = true ->
  phone_re phone = false ->
  snd (add_contact (n :: phone :: rest) book) = book ++ [(n, mkRecord n [] None)]
  /\ (phone <> [] ->
      fst (add_contact (n :: phone :: rest) book)
      = Ok (dir_file_color (py "WARN")
              (py "Value Error: " ++ py "Phone number must be exactly 10 digits."
               ++ py ", please use 'help' command for more details")))
  /\ (phone = [] ->
      fst (add_contact (n :: phone :: rest) book)
      = Ok (dir_file_color (py "ADD") (py "Contact added."))).
Proof.
  intros F A P. unfold add_contact, add_contact_body.
  rewrite F. unfold Record_init. rewrite (Name_init_alpha _ A). cbn [bind].
  unfold add_record. cbn [name]. rewrite (dict_set_absent _ _ _ F).
  destruct phone as [|c phone].
  - cbn [is_empty negb]. split; [reflexivity|].
    split; [congruence | reflexivity].
  - cbn [is_empty negb]. unfold add_phone.
    rewrite (Phone_init_no_match _ P). cbn [bind].
    split; [reflexivity|]. split; [reflexivity | discriminate].
Qed.

End AddContact.

Lemma add_contact_invalid_phone_witness :
  add_contact [py "Bob"; py "123"] AddressBook_init
  = (Ok (dir_file_color (py "WARN")
           (py "Value Error: " ++ py "Phone number must be exactly 10 digits."
            ++ py ", please use 'help' command for more details")),
     [(py "Bob", mkRecord (py "Bob") [] None)])
  /\ add_contact [py "Eve"; []] alice_book
     = (Ok (dir_file_color (py "ADD") (py "Contact added.")),
        [(py "Alice", alice_1990); (py "Eve", mkRecord (py "Eve") [] None)]).
Proof.
  split.
  - destruct (add_contact_invalid_phone AddressBook_init (py "Bob") (py "123") [])
      as (B & W & _); [reflexivity | reflexivity | reflexivity |].
    apply injective_projections; [apply W; discriminate | exact B].
  - destruct (add_contact_invalid_phone alice_book (py "Eve") [] [])
      as (B & _ & E); [reflexivity | reflexivity | reflexivity |].
    apply injective_projections; [apply E; reflexivity | exact B].
Defined.

(** C10 as stated fails on the empty phone: the constructor rejects it,
    yet the handler skips the validation, reports no error and answers
    that the contact was added. *)
Lemma add_contact_empty_phone_no_error :
  Phone_init [] = Raise InvalidPhone
  /\ find AddressBook_init (py "Bob") = None
  /\ add_contact [py "Bob"; []] AddressBook_init
     = (Ok (dir_file_color (py "ADD") (py "Contact added.")),
        [(py "Bob", mkRecord (py "Bob") [] None)]).
Proof. repeat split. Qed.

(** ** Upcoming birthdays: 29 February *)

Lemma replace_year_feb29 (b : date) (y : Z) :
  month b = 2 -> day b = 29 -> is_leap y = false ->
  exists e, replace_year b y = Raise e.
Proof.
  intros M D L. unfold replace_year, date_new. rewrite M, D.
  destruct (negb ((MINYEAR <=? y) && (y <=? MAXYEAR))); [eauto|].
  simpl. unfold days_in_month. simpl. rewrite L. simpl. eauto.
Qed.

Lemma upcoming_step_feb29 (today : date) (r : record) (b : date) :
  birthday r = Some b -> month b = 2 -> day b = 29 ->
  is_leap (year today) = false ->
  exists e, upcoming_step today r = Raise e.
Proof.
  intros B M D L. unfold upcoming_step. rewrite B.
  destruct (replace_year_feb29 b (year today) M D L) as [e ->].
  exists e. reflexivity.
Qed.

Lemma upcoming_loop_raises (today : date) (records : list record) (r : record) :
  In r records ->
  (exists e, upcoming_step today r = Raise e) ->
  forall upcoming, exists e, upcoming_loop today records upcoming = Raise e.
Proof.
  intros I [e He]. induction records as [|a records IH]; [destruct I|].
  intros upcoming. simpl.
  destruct (upcoming_step today a) as [o|e'] eqn:S; simpl.
  - destruct I as [<- | I]; [congruence|]. apply IH, I.
  - eauto.
Qed.

(** C4: with a record whose birthday is a 29 February in the book and a
    reference date in a year that is not a leap year,
    [get_upcoming_birthdays] raises. *)
Theorem get_upcoming_birthdays_feb29_raises
  (book : AddressBook) (today : date) (r : record) (b : date) :
  In r (values book) ->
  birthday r = Some b -> month b = 2 -> day b = 29 ->
  is_leap (year today) = false ->
  exists e, get_upcoming_birthdays book today = Raise e.
Proof.
  intros I B M D L. unfold get_upcoming_birthdays.
  apply (upcoming_loop_raises today (values book) r I).
  apply (upcoming_step_feb29 today r b B M D L).
Qed.

Lemma get_upcoming_birthdays_feb29_raises_witness :
  exists e, get_upcoming_birthdays leap_day_book first_of_march_2025 = Raise e.
Proof.
  apply (get_upcoming_birthdays_feb29_raises leap_day_book first_of_march_2025
           (mkRecord (py "Eve") [] (Some (mkdate 2024 2 29))) (mkdate 2024 2 29)).
  - simpl. right. left. reflexivity.
  - reflexivity.
  - reflexivity.
  - reflexivity.
  - reflexivity.
Defined.

(** ** Dates *)

Ltac bool_props :=
  repeat match goal with
         | H : _ && _ = true |- _ => apply andb_true_iff in H; destruct H
         | H : (_ <=? _) = true |- _ => apply Z.leb_le in H
         | H : (_ <=? _) = false |- _ => apply Z.leb_gt in H
         | H : (_ <? _) = true |- _ => apply Z.ltb_lt in H
         | H : (_ <? _) = false |- _ => apply Z.ltb_ge in H
         | H : (_ =? _) = true |- _ => apply Z.eqb_eq in H
         | H : (_ =? _) = false |- _ => apply Z.eqb_neq in H
         end.

Lemma valid_ymd_spec (y m d : Z) :
  valid_ymd y m d = true
  <-> 1 <= y <= 9999 /\ 1 <= m <= 12 /\ 1 <= d <= days_in_month y m.
Proof.
  unfold valid_ymd, MINYEAR, MAXYEAR.
  rewrite !andb_true_iff, !Z.leb_le. tauto.
Qed.

Lemma date_new_valid (y m d : Z) :
  valid_ymd y m d = true -> date_new y m d = Ok (mkdate y m d).
Proof.
  intros H. apply valid_ymd_spec in H. destruct H as [[A B] [[C D] [E F]]].
  unfold date_new, MINYEAR, MAXYEAR.
  apply Z.leb_le in A, B, C, D, E, F.
  rewrite A, B, C, D, E, F. reflexivity.
Qed.

Lemma date_new_invalid (y m d : Z) :
  valid_ymd y m d = false -> exists msg, date_new y m d = Raise (ValueError msg).
Proof.
  unfold valid_ymd, date_new. intros H.
  destruct ((MINYEAR <=? y) && (y <=? MAXYEAR)); simpl in *; [|eauto].
  destruct ((1 <=? m) && (m <=? 12)); simpl in *; [|eauto].
  destruct (1 <=? d); simpl in *; [|eauto].
  rewrite H. simpl. eauto.
Qed.

Lemma date_new_Ok (y m d : Z) (x : date) :
  date_new y m d = Ok x <-> valid_ymd y m d = true /\ x = mkdate y m d.
Proof.
  destruct (valid_ymd y m d) eqn:V.
  - rewrite (date_new_valid _ _ _ V). split.
    + intros H; injection H; auto.
    + intros [_ ->]; reflexivity.
  - destruct (date_new_invalid _ _ _ V) as [msg ->]. split.
    + discriminate.
    + intros [H _]; discriminate H.
Qed.

Lemma month_cases (m : Z) :
  1 <= m <= 12 ->
  m = 1 \/ m = 2 \/ m = 3 \/ m = 4 \/ m = 5 \/ m = 6 \/ m = 7 \/ m = 8
  \/ m = 9 \/ m = 10 \/ m = 11 \/ m = 12.
Proof. lia. Qed.

Ltac each_month H :=
  apply month_cases in H;
  repeat (destruct H as [H | H]; [subst | ]); [.. | subst].

Lemma days_in_month_bounds (y m : Z) : 28 <= days_in_month y m <= 31.
Proof.
  unfold days_in_month.
  destruct (m =? 2); [destruct (is_leap y); lia|].
  destruct ((m =? 4) || (m =? 6) || (m =? 9) || (m =? 11)); lia.
Qed.

(** The days of a year before the end of a month. *)
Lemma days_before_month_end (y m : Z) :
  1 <= m <= 12 ->
  days_before_month y m + days_in_month y m <= 365 + (if is_leap y then 1 else 0).
Proof.
  intros H. unfold days_before_month, DAYS_BEFORE_MONTH, days_in_month.
  each_month H; simpl; destruct (is_leap y); simpl; lia.
Qed.

Lemma days_before_month_nonneg (y m : Z) : 0 <= days_before_month y m.
Proof.
  unfold days_before_month, DAYS_BEFORE_MONTH.
  repeat match goal with
         | |- context [if ?c then _ else _] => destruct c
         end; lia.
Qed.

Lemma toordinal_upper (d : date) :
  valid_date d = true -> year d <= 9998 -> toordinal d <= 3651700.
Proof.
  unfold valid_date. intros V Y. apply valid_ymd_spec in V.
  destruct V as [Yr [M D]]. unfold toordinal, days_before_year. cbv zeta.
  pose proof (days_before_month_end (year d) (month d) M) as E.
  assert (days_before_month (year d) (month d) + day d <= 366)
    by (destruct (is_leap (year d)); lia).
  Z.div_mod_to_equations. lia.
Qed.

(** The ordinal of the next day is the next ordinal. *)
Lemma days_before_year_succ (y : Z) :
  days_before_year (y + 1)
  = days_before_year y + 365 + (if is_leap y then 1 else 0).
Proof.
  unfold days_before_year, is_leap.
  replace (y + 1 - 1) with y by lia.
  destruct (y mod 4 =? 0) eqn:A; destruct (y mod 100 =? 0) eqn:B;
    destruct (y mod 400 =? 0) eqn:C; simpl; bool_props;
    Z.div_mod_to_equations; lia.
Qed.

Lemma toordinal_tomorrow (d : date) :
  valid_date d = true -> toordinal (tomorrow d) = toordinal d + 1.
Proof.
  unfold valid_date. intros V. apply valid_ymd_spec in V.
  destruct V as [Yr [M D]]. destruct d as [y m dd]. simpl in *.
  unfold tomorrow, toordinal. simpl.
  destruct (dd <? days_in_month y m) eqn:E; simpl; [lia|].
  apply Z.ltb_ge in E. assert (dd = days_in_month y m) by lia. subst dd.
  destruct (m <? 12) eqn:F; simpl.
  - apply Z.ltb_lt in F. assert (G : 1 <= m <= 11) by lia. clear M D E F.
    unfold days_before_month, DAYS_BEFORE_MONTH, days_in_month.
    assert (m = 1 \/ m = 2 \/ m = 3 \/ m = 4 \/ m = 5 \/ m = 6 \/ m = 7
            \/ m = 8 \/ m = 9 \/ m = 10 \/ m = 11) as H by lia.
    repeat (destruct H as [H | H]; [subst; simpl; destruct (is_leap y); simpl; lia|]).
    subst; simpl; destruct (is_leap y); simpl; lia.
  - apply Z.ltb_ge in F. assert (m = 12) by lia. subst m.
    rewrite days_before_year_succ.
    unfold days_before_month, DAYS_BEFORE_MONTH, days_in_month. simpl.
    destruct (is_leap y); simpl; lia.
Qed.

Lemma tomorrow_valid (d : date) :
  valid_date d = true -> year d < MAXYEAR -> valid_date (tomorrow d) = true.
Proof.
  unfold valid_date, MAXYEAR. intros V Y. apply valid_ymd_spec in V.
  destruct V as [Yr [M D]]. unfold tomorrow.
  destruct (day d <? days_in_month (year d) (month d)) eqn:E; simpl.
  - apply Z.ltb_lt in E. apply valid_ymd_spec. lia.
  - destruct (month d <? 12) eqn:F; simpl; apply valid_ymd_spec.
    + apply Z.ltb_lt in F.
      pose proof (days_in_month_bounds (year d) (month d + 1)). lia.
    + pose proof (days_in_month_bounds (year d + 1) 1). lia.
Qed.

(** The congratulation date is the occurrence, or the Monday after it
    when the occurrence is a Saturday or a Sunday. *)
Lemma shifted_on_weekday (occ : date) :
  valid_date occ = true -> year occ < MAXYEAR ->
  (weekday occ < 5 /\ shifted occ = occ)
  \/ (5 <= weekday occ /\ weekday (shifted occ) = 0
      /\ toordinal (shifted occ) = toordinal occ + (7 - weekday occ)).
Proof.
  intros V Y. unfold shifted.
  assert (W : 0 <= weekday occ < 7) by (apply Z.mod_pos_bound; lia).
  assert (T1 : toordinal (days_later 1 occ) = toordinal occ + 1)
    by (apply toordinal_tomorrow, V).
  assert (T2 : toordinal (days_later 2 occ) = toordinal occ + 2).
  { simpl. rewrite toordinal_tomorrow by (apply tomorrow_valid; assumption).
    simpl in T1. lia. }
  destruct (weekday occ =? 5) eqn:A; [|destruct (weekday occ =? 6) eqn:B].
  - apply Z.eqb_eq in A. right. rewrite T2. split; [lia|]. split; [|lia].
    unfold weekday in *. rewrite T2. Z.div_mod_to_equations. lia.
  - apply Z.eqb_eq in B. right. rewrite T1. split; [lia|]. split; [|lia].
    unfold weekday in *. rewrite T1. Z.div_mod_to_equations. lia.
  - apply Z.eqb_neq in A, B. left. split; [lia | reflexivity].
Qed.

(** ** Upcoming birthdays: the list *)

Lemma replace_year_defined (b : date) (y : Z) :
  valid_ymd y (month b) (day b) = true ->
  replace_year b y = Ok (mkdate y (month b) (day b)).
Proof. apply date_new_valid. Qed.

Lemma replace_year_undefined (b : date) (y : Z) :
  valid_ymd y (month b) (day b) = false -> exists e, replace_year b y = Raise e.
Proof.
  intros H. destruct (date_new_invalid _ _ _ H) as [msg E].
  exists (ValueError msg). exact E.
Qed.

(** The shift, when it exists, is the one of the specification. *)
Lemma shift_step (occ : date) :
  shift_defined occ = true ->
  (if weekday occ =? 5 then date_add occ 2
   else if weekday occ =? 6 then date_add occ 1
   else Ok occ) = Ok (shifted occ).
Proof.
  unfold shift_defined, shifted, date_add.
  change (Z.of_nat 2) with 2. change (Z.of_nat 1) with 1.
  destruct (weekday occ =? 5); [intros ->; reflexivity|].
  destruct (weekday occ =? 6); [intros ->; reflexivity|].
  reflexivity.
Qed.

Lemma shift_step_undefined (occ : date) :
  shift_defined occ = false ->
  (if weekday occ =? 5 then date_add occ 2
   else if weekday occ =? 6 then date_add occ 1
   else Ok occ) = Raise OverflowError.
Proof.
  unfold shift_defined, date_add.
  change (Z.of_nat 2) with 2. change (Z.of_nat 1) with 1.
  destruct (weekday occ =? 5); [intros ->; reflexivity|].
  destruct (weekday occ =? 6); [intros ->; reflexivity|].
  discriminate.
Qed.

(** The occurrence that the loop computes. *)
Lemma occurrence_step (today b : date) :
  occurrence_defined today b = true ->
  (upcoming_bday <- replace_year b (year today) ;;
   (if date_ltb upcoming_bday today
    then replace_year b (year today + 1)
    else Ok upcoming_bday))
  = Ok (occurrence today b).
Proof.
  unfold occurrence_defined, occurrence. intros D.
  apply andb_true_iff in D. destruct D as [D1 D2].
  rewrite (replace_year_defined b (year today) D1). cbn [bind].
  fold (this_year today b).
  destruct (date_ltb (this_year today b) today); [|reflexivity].
  apply (replace_year_defined b (year today + 1) D2).
Qed.

Lemma occurrence_step_undefined (today b : date) :
  occurrence_defined today b = false ->
  exists e,
    (upcoming_bday <- replace_year b (year today) ;;
     (if date_ltb upcoming_bday today
      then replace_year b (year today + 1)
      else Ok upcoming_bday))
    = Raise e.
Proof.
  unfold occurrence_defined. intros D.
  destruct (valid_date (this_year today b)) eqn:D1.
  - rewrite (replace_year_defined b (year today) D1). cbn [bind].
    fold (this_year today b). simpl in D.
    destruct (date_ltb (this_year today b) today); [|discriminate D].
    apply replace_year_undefined, D.
  - destruct (replace_year_undefined b (year today) D1) as [e ->].
    exists e. reflexivity.
Qed.

Lemma bind_assoc {A B C} (r : result A) (f : A -> result B) (g : B -> result C) :
  (y <- (x <- r ;; f x) ;; g y) = (x <- r ;; y <- f x ;; g y).
Proof. destruct r; reflexivity. Qed.

(** One turn of the loop, split after the occurrence. *)
Lemma upcoming_step_unfold (today : date) (r : record) (b : date) :
  birthday r = Some b ->
  upcoming_step today r
  = (occ <- (upcoming_bday <- replace_year b (year today) ;;
             (if date_ltb upcoming_bday today
              then replace_year b (year today + 1)
              else Ok upcoming_bday)) ;;
     if (0 <=? days_between occ today) && (days_between occ today <? 7)
     then congratulate <- (if weekday occ =? 5 then date_add occ 2
                           else if weekday occ =? 6 then date_add occ 1
                           else Ok occ) ;;
          Ok (Some (mkEntry (name r) (strftime_dmY congratulate) (first_phone r)))
     else Ok None).
Proof.
  intros B. unfold upcoming_step. rewrite B, bind_assoc. reflexivity.
Qed.

(** A turn that is defined appends what the specification says of the
    record; one that is not raises. *)
Lemma upcoming_step_spec (today : date) (r : record) :
  step_defined today r = true ->
  upcoming_step today r = Ok (spec_entry today r).
Proof.
  unfold step_defined, spec_entry. destruct (birthday r) as [b|] eqn:B.
  - intros D. apply andb_true_iff in D. destruct D as [D S].
    rewrite (upcoming_step_unfold today r b B), (occurrence_step today b D).
    cbn [bind]. unfold in_window, days_between in *.
    destruct ((0 <=? toordinal (occurrence today b) - toordinal today)
              && (toordinal (occurrence today b) - toordinal today <? 7));
      [|reflexivity].
    rewrite (shift_step _ S). reflexivity.
  - intros _. unfold upcoming_step. rewrite B. reflexivity.
Qed.

Lemma upcoming_step_undefined (today : date) (r : record) :
  step_defined today r = false -> exists e, upcoming_step today r = Raise e.
Proof.
  unfold step_defined. destruct (birthday r) as [b|] eqn:B; [|discriminate].
  intros D. rewrite (upcoming_step_unfold today r b B).
  destruct (occurrence_defined today b) eqn:O.
  - rewrite (occurrence_step today b O). cbn [bind]. simpl in D.
    unfold in_window, days_between in *.
    destruct ((0 <=? toordinal (occurrence today b) - toordinal today)
              && (toordinal (occurrence today b) - toordinal today <? 7));
      [|discriminate D].
    rewrite (shift_step_undefined _ D). exists OverflowError. reflexivity.
  - destruct (occurrence_step_undefined today b O) as [e ->].
    exists e. reflexivity.
Qed.

Lemma upcoming_loop_spec (today : date) (records : list record) :
  forallb (step_defined today) records = true ->
  forall upcoming,
    upcoming_loop today records upcoming
    = Ok (upcoming
          ++ flat_map (fun r => match spec_entry today r with
                                | Some e => [e]
                                | None => []
                                end) records).
Proof.
  induction records as [|r records IH]; intros D upcoming; simpl in *.
  - rewrite app_nil_r. reflexivity.
  - apply andb_true_iff in D. destruct D as [D1 D2].
    rewrite (upcoming_step_spec today r D1). cbn [bind]. rewrite (IH D2).
    destruct (spec_entry today r); simpl.
    + rewrite <- app_assoc. reflexivity.
    + reflexivity.
Qed.

Lemma forallb_false_witness {A} (f : A -> bool) (l : list A) :
  forallb f l = false -> exists x, In x l /\ f x = false.
Proof.
  induction l as [|a l IH]; simpl; [discriminate|].
  destruct (f a) eqn:E; simpl.
  - intros H. destruct (IH H) as [x [I F]]. exists x. auto.
  - intros _. exists a. auto.
Qed.

(** In a year before 9999, a birthday that is not a 29 February always
    has its occurrence and its congratulation date. *)
Lemma step_defined_plain (today : date) (r : record) :
  valid_date today = true -> year today < MAXYEAR ->
  (forall b, birthday r = Some b ->
             valid_date b = true /\ ~ (month b = 2 /\ day b = 29)) ->
  step_defined today r = true.
Proof.
  intros V Y H. unfold step_defined. destruct (birthday r) as [b|]; [|reflexivity].
  destruct (H b eq_refl) as [Vb F]. clear H.
  assert (E : forall y, 1 <= y <= 9999 -> valid_ymd y (month b) (day b) = true).
  { intros y Hy. unfold valid_date in Vb. apply valid_ymd_spec in Vb.
    apply valid_ymd_spec. destruct Vb as [_ [M D]].
    repeat split; try lia. revert D. unfold days_in_month.
    destruct (month b =? 2) eqn:M2; [|tauto].
    apply Z.eqb_eq in M2. destruct (is_leap (year b)), (is_leap y); lia. }
  pose proof V as V'. unfold valid_date in V'. apply valid_ymd_spec in V'.
  unfold MAXYEAR in Y.
  assert (O : occurrence_defined today b = true).
  { unfold occurrence_defined, valid_date, this_year, next_year. simpl.
    rewrite (E (year today)) by lia.
    rewrite (E (year today + 1)) by lia.
    simpl. destruct (date_ltb _ _); reflexivity. }
  rewrite O. simpl. unfold in_window.
  destruct ((0 <=? toordinal (occurrence today b) - toordinal today)
            && (toordinal (occurrence today b) - toordinal today <? 7)) eqn:W;
    [|reflexivity].
  apply andb_true_iff in W. destruct W as [_ W]. apply Z.ltb_lt in W.
  pose proof (toordinal_upper today V) as B. unfold shift_defined, MAXORDINAL.
  destruct (weekday _ =? 5); [apply Z.leb_le; lia|].
  destruct (weekday _ =? 6); [apply Z.leb_le; lia | reflexivity].
Qed.

(** C1, amended: the list returned holds, in the order of the book,
    one entry for each record that has a birthday whose occurrence (this year's, or
    next year's when this year's is before the reference date) is 0 to 6
    days after the reference date, and no other entry; the date of an
    entry is the occurrence, moved 2 days later from a Saturday and 1 day
    later from a Sunday, the window being tested on the occurrence itself.
    That is the result whenever the occurrence and the congratulation date
    of every birthday of the book exist; otherwise the call raises. *)
Theorem get_upcoming_birthdays_spec (book : AddressBook) (today : date) :
  (forallb (step_defined today) (values book) = true ->
   get_upcoming_birthdays book today = Ok (upcoming_spec book today))
  /\ (forallb (step_defined today) (values book) = false ->
      exists e, get_upcoming_birthdays book today = Raise e).
Proof.
  unfold get_upcoming_birthdays, upcoming_spec. split; intros D.
  - rewrite (upcoming_loop_spec today (values book) D). reflexivity.
  - destruct (forallb_false_witness _ _ D) as [r [I F]].
    apply (upcoming_loop_raises today (values book) r I).
    apply upcoming_step_undefined, F.
Qed.

(** ** Birthday *)

Section BirthdayFacts.
Context {U : UnicodeData}.

Lemma in_range_spec (lo hi c : N) :
  in_range lo hi c = true <-> (lo <= c <= hi)%N.
Proof.
  unfold in_range. rewrite andb_true_iff, !N.leb_le. reflexivity.
Qed.

Lemma re_day_cases (a b : N) :
  re_day a b = true ->
  (a = 48%N /\ in_range 49 57 b = true)
  \/ ((a = 49%N \/ a = 50%N) /\ isdecimal_char b = true)
  \/ (a = 51%N /\ in_range 48 49 b = true).
Proof.
  unfold re_day. rewrite !orb_true_iff, !andb_true_iff, !N.eqb_eq.
  rewrite (in_range_spec 49 50 a).
  intros [[H | H] | H]; [left | right; left | right; right];
    intuition lia.
Qed.

Lemma re_month_cases (a b : N) :
  re_month a b = true ->
  (a = 48%N /\ in_range 49 57 b = true) \/ (a = 49%N /\ in_range 48 50 b = true).
Proof.
  unfold re_month. rewrite !orb_true_iff, !andb_true_iff, !N.eqb_eq. tauto.
Qed.

(** On a string that the pattern of [Birthday] matches, the first match
    of [strptime] reads the same fields and leaves nothing. *)
Lemma strptime_matches_first (d1 d2 m1 m2 y1 y2 y3 y4 : N) :
  re_day d1 d2 = true -> re_month m1 m2 = true ->
  forallb isdecimal_char [y1; y2; y3; y4] = true ->
  exists others,
    strptime_matches [d1; d2; 46; m1; m2; 46; y1; y2; y3; y4]%N
    = ([d1; d2], [m1; m2], [y1; y2; y3; y4], []) :: others.
Proof.
  intros D M Y.
  assert (HY : directive_Y [y1; y2; y3; y4] = [([y1; y2; y3; y4], [])])
    by (unfold directive_Y; rewrite Y; reflexivity).
  assert (HM : exists om,
             directive_m [m1; m2; 46; y1; y2; y3; y4]%N
             = ([m1; m2], [46; y1; y2; y3; y4]%N) :: om).
  { apply re_month_cases in M. destruct M as [[-> R] | [-> R]];
      unfold directive_m; simpl; rewrite R; simpl; eauto. }
  destruct HM as [om HM].
  assert (HD : exists od,
             directive_d [d1; d2; 46; m1; m2; 46; y1; y2; y3; y4]%N
             = ([d1; d2], [46; m1; m2; 46; y1; y2; y3; y4]%N) :: od).
  { apply re_day_cases in D.
    destruct D as [[-> R] | [[[-> | ->] R] | [-> R]]];
      unfold directive_d; simpl; rewrite R; simpl; eauto. }
  destruct HD as [od HD].
  assert (HL : forall t, literal 46 (46%N :: t) = [t]) by reflexivity.
  unfold strptime_matches. rewrite HD. cbn [flat_map]. rewrite HL.
  cbn [flat_map app]. rewrite HM. cbn [flat_map]. rewrite HL.
  cbn [flat_map app]. rewrite HY. cbn [map app]. eauto.
Qed.

Lemma birthday_re_shape (raw : str) :
  birthday_re raw = true
  <-> exists d1 d2 m1 m2 y1 y2 y3 y4,
      raw = [d1; d2; 46; m1; m2; 46; y1; y2; y3; y4]%N
      /\ re_day d1 d2 = true /\ re_month m1 m2 = true
      /\ forallb isdecimal_char [y1; y2; y3; y4] = true.
Proof.
  split.
  - destruct raw as [|d1 [|d2 [|p1 [|m1 [|m2 [|p2 [|y1 [|y2 [|y3 [|y4 [|z raw]]]]]]]]]]];
      simpl; try discriminate.
    rewrite !andb_true_iff, !N.eqb_eq.
    intros [[[[D ->] M] ->] Y].
    exists d1, d2, m1, m2, y1, y2, y3, y4.
    simpl. rewrite !andb_true_iff. tauto.
  - intros (d1 & d2 & m1 & m2 & y1 & y2 & y3 & y4 & -> & D & M & Y).
    unfold birthday_re. rewrite D, M, Y. reflexivity.
Qed.

(** What [strptime] returns on a string that the pattern matches. *)
Lemma strptime_dmY_matched (d1 d2 m1 m2 y1 y2 y3 y4 : N) :
  re_day d1 d2 = true -> re_month m1 m2 = true ->
  forallb isdecimal_char [y1; y2; y3; y4] = true ->
  strptime_dmY [d1; d2; 46; m1; m2; 46; y1; y2; y3; y4]%N
  = date_new (int [y1; y2; y3; y4]) (int [m1; m2]) (int [d1; d2]).
Proof.
  intros D M Y. unfold strptime_dmY.
  destruct (strptime_matches_first d1 d2 m1 m2 y1 y2 y3 y4 D M Y) as [o ->].
  reflexivity.
Qed.

Lemma Birthday_init_total (raw : str) :
  (exists x, Birthday_init raw = Ok x) \/ Birthday_init raw = Raise InvalidDate.
Proof.
  unfold Birthday_init. destruct (birthday_re raw) eqn:R; [|right; reflexivity].
  apply birthday_re_shape in R.
  destruct R as (d1 & d2 & m1 & m2 & y1 & y2 & y3 & y4 & -> & D & M & Y).
  rewrite (strptime_dmY_matched _ _ _ _ _ _ _ _ D M Y).
  destruct (valid_ymd (int [y1; y2; y3; y4]) (int [m1; m2]) (int [d1; d2])) eqn:V.
  - rewrite (date_new_valid _ _ _ V). left. eauto.
  - destruct (date_new_invalid _ _ _ V) as [msg ->]. right. reflexivity.
Qed.

Lemma Birthday_init_Ok (raw : str) (x : date) :
  Birthday_init raw = Ok x
  <-> exists d1 d2 m1 m2 y1 y2 y3 y4,
      raw = [d1; d2; 46; m1; m2; 46; y1; y2; y3; y4]%N
      /\ re_day d1 d2 = true /\ re_month m1 m2 = true
      /\ forallb isdecimal_char [y1; y2; y3; y4] = true
      /\ valid_ymd (int [y1; y2; y3; y4]) (int [m1; m2]) (int [d1; d2]) = true
      /\ x = mkdate (int [y1; y2; y3; y4]) (int [m1; m2]) (int [d1; d2]).
Proof.
  split.
  - unfold Birthday_init. destruct (birthday_re raw) eqn:R; [|discriminate].
    apply birthday_re_shape in R.
    destruct R as (d1 & d2 & m1 & m2 & y1 & y2 & y3 & y4 & -> & D & M & Y).
    rewrite (strptime_dmY_matched _ _ _ _ _ _ _ _ D M Y).
    destruct (valid_ymd (int [y1; y2; y3; y4]) (int [m1; m2]) (int [d1; d2])) eqn:V.
    + rewrite (date_new_valid _ _ _ V). intros H. injection H as <-.
      exists d1, d2, m1, m2, y1, y2, y3, y4. tauto.
    + destruct (date_new_invalid _ _ _ V) as [msg ->]. discriminate.
  - intros (d1 & d2 & m1 & m2 & y1 & y2 & y3 & y4 & -> & D & M & Y & V & ->).
    unfold Birthday_init.
    assert (R : birthday_re [d1; d2; 46; m1; m2; 46; y1; y2; y3; y4]%N = true)
      by (apply birthday_re_shape; exists d1, d2, m1, m2, y1, y2, y3, y4; tauto).
    rewrite R, (strptime_dmY_matched _ _ _ _ _ _ _ _ D M Y).
    rewrite (date_new_valid _ _ _ V). reflexivity.
Qed.


Lemma int_ascii2 (a b : N) :
  is_ascii_digit a = true -> is_ascii_digit b = true ->
  int [a; b] = 10 * (Z.of_N a - 48) + (Z.of_N b - 48).
Proof.
  intros A B. unfold int. cbn [fold_left].
  rewrite (decimal_value_ascii a A), (decimal_value_ascii b B). lia.
Qed.

Lemma int_ascii4 (a b c d : N) :
  is_ascii_digit a = true -> is_ascii_digit b = true ->
  is_ascii_digit c = true -> is_ascii_digit d = true ->
  int [a; b; c; d]
  = 1000 * (Z.of_N a - 48) + 100 * (Z.of_N b - 48)
    + 10 * (Z.of_N c - 48) + (Z.of_N d - 48).
Proof.
  intros A B C D. unfold int. cbn [fold_left].
  rewrite (decimal_value_ascii a A), (decimal_value_ascii b B),
    (decimal_value_ascii c C), (decimal_value_ascii d D). lia.
Qed.

Lemma re_day_ascii (a b : N) : ascii_re_day a b = true -> re_day a b = true.
Proof.
  unfold ascii_re_day, re_day. rewrite !orb_true_iff, !andb_true_iff.
  intros [[H | [H1 H2]] | H]; auto.
  left. right. split; [exact H1 | apply decimal_ascii, H2].
Qed.





End BirthdayFacts.

(** ** The round trip of a birthday through its text *)

Section BirthdayText.
Context {U : UnicodeData}.

Lemma digit_char_ascii (v : Z) :
  0 <= v <= 9 -> is_ascii_digit (digit_char v) = true.
Proof.
  intros H. unfold is_ascii_digit, digit_char. apply in_range_spec. lia.
Qed.

Lemma digit_char_value (v : Z) :
  0 <= v <= 9 -> Z.of_N (digit_char v) - 48 = v.
Proof. intros H. unfold digit_char. lia. Qed.

Lemma digit_of_div (n k : Z) : 0 <= n -> 0 < k -> 0 <= n / k mod 10 <= 9.
Proof.
  intros. pose proof (Z.mod_pos_bound (n / k) 10). lia.
Qed.

Lemma digit_of_mod (n : Z) : 0 <= n mod 10 <= 9.
Proof. pose proof (Z.mod_pos_bound n 10). lia. Qed.

Lemma pad2_ascii (n : Z) : 0 <= n -> forallb is_ascii_digit (pad2 n) = true.
Proof.
  intros H. unfold pad2. simpl.
  rewrite (digit_char_ascii _ (digit_of_div n 10 H ltac:(lia))).
  rewrite (digit_char_ascii _ (digit_of_mod n)). reflexivity.
Qed.

Lemma int_pad2 (n : Z) : 0 <= n <= 99 -> int (pad2 n) = n.
Proof.
  intros H. unfold pad2.
  rewrite int_ascii2
    by (apply digit_char_ascii; (apply digit_of_div; lia) || apply digit_of_mod).
  rewrite !digit_char_value by ((apply digit_of_div; lia) || apply digit_of_mod).
  Z.div_mod_to_equations. lia.
Qed.

Lemma int_pad4 (n : Z) : 0 <= n <= 9999 -> int (pad4 n) = n.
Proof.
  intros H. unfold pad4.
  rewrite int_ascii4
    by (apply digit_char_ascii; (apply digit_of_div; lia) || apply digit_of_mod).
  rewrite !digit_char_value by ((apply digit_of_div; lia) || apply digit_of_mod).
  Z.div_mod_to_equations. lia.
Qed.

Lemma pad4_decimal (n : Z) :
  0 <= n ->
  forallb isdecimal_char
    [digit_char (n / 1000 mod 10); digit_char (n / 100 mod 10);
     digit_char (n / 10 mod 10); digit_char (n mod 10)] = true.
Proof.
  intros H. apply ascii_digits_decimal. simpl.
  rewrite !digit_char_ascii
    by ((apply digit_of_div; lia) || apply digit_of_mod).
  reflexivity.
Qed.

Lemma re_day_pad2 (d : Z) :
  1 <= d <= 31 ->
  re_day (digit_char (d / 10 mod 10)) (digit_char (d mod 10)) = true.
Proof.
  intros H. apply re_day_ascii.
  assert (C : exists k : nat, d = Z.of_nat k /\ (1 <= k <= 31)%nat)
    by (exists (Z.to_nat d); lia).
  destruct C as [k [-> K]].
  do 32 (destruct k as [|k]; [try lia; reflexivity|]). lia.
Qed.

Lemma re_month_pad2 (m : Z) :
  1 <= m <= 12 ->
  re_month (digit_char (m / 10 mod 10)) (digit_char (m mod 10)) = true.
Proof.
  intros H. each_month H; reflexivity.
Qed.

Lemma year_text_four (n : Z) : 1000 <= n -> year_text n = pad4 n.
Proof.
  intros H. unfold year_text.
  destruct (n <? 10) eqn:A; [apply Z.ltb_lt in A; lia|].
  destruct (n <? 100) eqn:B; [apply Z.ltb_lt in B; lia|].
  destruct (n <? 1000) eqn:C; [apply Z.ltb_lt in C; lia|].
  reflexivity.
Qed.

Lemma year_text_short (n : Z) : n < 1000 -> (length (year_text n) < 4)%nat.
Proof.
  intros H. unfold year_text.
  destruct (n <? 10); [simpl; lia|].
  destruct (n <? 100); [simpl; lia|].
  destruct (n <? 1000) eqn:C; [simpl; lia|].
  apply Z.ltb_ge in C. lia.
Qed.

(** The text that [strftime] writes for a date from the year 1000 on is
    read back as that date. *)
Lemma Birthday_init_strftime (b : date) :
  valid_date b = true -> 1000 <= year b ->
  Birthday_init (strftime_dmY b) = Ok b.
Proof.
  unfold valid_date. intros V K. pose proof V as V'.
  apply valid_ymd_spec in V'. destruct V' as [Y [M D]].
  pose proof (days_in_month_bounds (year b) (month b)) as B.
  unfold strftime_dmY. rewrite (year_text_four _ K).
  apply Birthday_init_Ok.
  exists (digit_char (day b / 10 mod 10)), (digit_char (day b mod 10)),
    (digit_char (month b / 10 mod 10)), (digit_char (month b mod 10)),
    (digit_char (year b / 1000 mod 10)), (digit_char (year b / 100 mod 10)),
    (digit_char (year b / 10 mod 10)), (digit_char (year b mod 10)).
  split; [reflexivity|].
  split; [apply re_day_pad2; lia|].
  split; [apply re_month_pad2; lia|].
  split; [apply pad4_decimal; lia|].
  fold (pad2 (day b)). fold (pad2 (month b)). fold (pad4 (year b)).
  rewrite !int_pad2, int_pad4 by lia.
  split; [exact V | destruct b; reflexivity].
Qed.

(** The text written for an earlier year is too short for the pattern of
    [Birthday]. *)
Lemma strftime_short (b : date) :
  year b < 1000 -> (length (strftime_dmY b) < 10)%nat.
Proof.
  intros K. pose proof (year_text_short _ K) as L.
  unfold strftime_dmY, pad2. rewrite !length_app. simpl. lia.
Qed.

Lemma birthday_re_length (raw : str) :
  birthday_re raw = true -> length raw = 10%nat.
Proof.
  intros R. apply birthday_re_shape in R.
  destruct R as (d1 & d2 & m1 & m2 & y1 & y2 & y3 & y4 & -> & _). reflexivity.
Qed.

Lemma Birthday_init_strftime_short (b : date) :
  year b < 1000 -> Birthday_init (strftime_dmY b) = Raise InvalidDate.
Proof.
  intros K. pose proof (strftime_short b K) as L. unfold Birthday_init.
  destruct (birthday_re (strftime_dmY b)) eqn:R; [|reflexivity].
  apply birthday_re_length in R. lia.
Qed.

End BirthdayText.

(** ** The round trip of a book through its JSON snapshot *)

Section RoundTrip.
Context {U : UnicodeData}.

Lemma load_phones_valid (ps : list str) :
  Forall (fun p => phone_re p = true) ps ->
  forall r,
    load_phones r (map JStr ps)
    = Ok (mkRecord (name r) (phones r ++ ps) (birthday r)).
Proof.
  induction 1 as [|p ps P _ IH]; intros r; simpl.
  - rewrite app_nil_r. destruct r; reflexivity.
  - unfold add_phone. rewrite (Phone_init_match _ P). cbn [bind].
    rewrite IH. simpl. rewrite <- app_assoc. reflexivity.
Qed.

Lemma load_item_saved (book : AddressBook) (r : record) :
  wf_record r ->
  load_item book (name r) (saved_info r)
  = if four_digit_year r then Ok (add_record book r) else Raise InvalidDate.
Proof.
  intros (A & P & B). destruct r as [n ps bo]. cbn [name phones birthday] in *.
  unfold load_item, Record_init. rewrite (Name_init_alpha _ A). cbn [bind].
  assert (G1 : json_get (saved_info (mkRecord n ps bo)) (py "phones") (JList [])
               = Ok (JList (map JStr ps))) by reflexivity.
  rewrite G1. cbn [bind iterate]. rewrite (load_phones_valid _ P).
  cbn [bind name phones birthday app].
  destruct bo as [b|].
  - assert (G2 : json_get (saved_info (mkRecord n ps (Some b))) (py "birthday") JNull
                 = Ok (JStr (strftime_dmY b))) by reflexivity.
    rewrite G2. cbn [bind].
    assert (T : truthy (JStr (strftime_dmY b)) = true) by reflexivity.
    rewrite T. cbn [bind as_str]. unfold add_birthday, four_digit_year.
    cbn [birthday]. destruct (1000 <=? year b) eqn:K.
    + apply Z.leb_le in K.
      rewrite (Birthday_init_strftime b (B b eq_refl) K). reflexivity.
    + apply Z.leb_gt in K.
      rewrite (Birthday_init_strftime_short b K). reflexivity.
  - reflexivity.
Qed.

Lemma data_to_save_items (book : AddressBook) :
  data_to_save book = JDict (map (fun kr => (fst kr, saved_info (snd kr))) book).
Proof.
  unfold data_to_save. f_equal. apply map_ext. intros [k r]. reflexivity.
Qed.

Lemma load_items_saved (l : AddressBook) :
  Forall (fun kr => fst kr = name (snd kr) /\ wf_record (snd kr)) l ->
  forall acc,
    NoDup (keys acc ++ keys l) ->
    load_items acc (map (fun kr => (fst kr, saved_info (snd kr))) l)
    = if forallb four_digit_year (values l) then Ok (acc ++ l)
      else Raise InvalidDate.
Proof.
  induction 1 as [|[k r] l [K W] _ IH]; intros acc N; simpl in *.
  - rewrite app_nil_r. reflexivity.
  - subst k. rewrite (load_item_saved acc r W).
    destruct (four_digit_year r); [|reflexivity]. cbn [bind andb].
    unfold add_record. rewrite dict_set_absent.
    + rewrite IH.
      * rewrite <- app_assoc. reflexivity.
      * unfold keys in *. rewrite map_app, <- app_assoc. exact N.
    + apply dict_get_None_keys. intros I.
      apply NoDup_remove_2 in N. apply N, in_or_app. left. exact I.
Qed.

(** X23: what [load_address_book] makes of the file that
    [save_address_book] has written for a well-formed book.  When every
    birthday of the book is in a year from 1000 on, the book that was
    saved: the same contacts in the same order, each with its name, its
    phones in their order and its birthday, or none.  When some birthday
    is in an earlier year, the error of [Birthday], the year having been
    written on fewer than four characters. *)
Theorem save_load_round_trip
  (book : AddressBook) (fs : filesystem) (filename : str) :
  wf_book book ->
  load_address_book (save_address_book book fs filename) filename
  = if forallb four_digit_year (values book) then Ok book
    else Raise InvalidDate.
Proof.
  intros [N W]. unfold load_address_book, save_address_book.
  rewrite dict_get_set_same. cbn [bind]. rewrite data_to_save_items.
  apply (load_items_saved book W []). exact N.
Qed.

End RoundTrip.

Lemma alice_book_wf : wf_book alice_book.
Proof.
  split.
  - repeat constructor. intros [].
  - repeat constructor. intros b H. injection H as <-. reflexivity.
Defined.

Lemma early_book_wf : wf_book early_book.
Proof.
  split.
  - repeat constructor. intros [].
  - repeat constructor. intros b H. injection H as <-. reflexivity.
Defined.

Lemma save_load_round_trip_witness :
  load_address_book (save_address_book alice_book [] (py "contacts.json"))
    (py "contacts.json")
  = Ok [(py "Alice",
         mkRecord (py "Alice") [py "1234567890"] (Some (mkdate 1990 6 15)))]
  /\ load_address_book (save_address_book early_book [] (py "contacts.json"))
       (py "contacts.json")
     = Raise InvalidDate.
Proof.
  split.
  - apply (save_load_round_trip alice_book [] (py "contacts.json")).
    exact alice_book_wf.
  - apply (save_load_round_trip early_book [] (py "contacts.json")).
    exact early_book_wf.
Defined.

(** C5 fails on the code: [Birthday] accepts the text of 15 June 990;
    the book with that birthday is well formed; [save_address_book]
    writes the birthday as 15.06.990, which [load_address_book] then
    refuses with the error of [Birthday], so that no book is loaded.
    [save_data] and [load_data] return that same book. *)
Theorem save_load_early_year_fails :
  Birthday_init (py "15.06.0990") = Ok (mkdate 990 6 15)
  /\ wf_book early_book
  /\ save_address_book early_book [] (py "contacts.json")
     = [(py "contacts.json",
         JsonText (JDict [(py "Old",
                           JDict [(py "phones", JList []);
                                  (py "birthday", JStr (py "15.06.990"))])]))]
  /\ load_address_book (save_address_book early_book [] (py "contacts.json"))
       (py "contacts.json")
     = Raise InvalidDate
  /\ load_data (save_data early_book [] (py "contacts.json")) (py "contacts.json")
     = Ok early_book.
Proof.
  split; [reflexivity|]. split; [exact early_book_wf|].
  split; [reflexivity|]. split; reflexivity.
Qed.

(** ** Books built by the operations are well formed *)

Lemma keys_dict_set {V} (d : dict V) (k : str) (v : V) :
  keys (dict_set d k v)
  = match dict_get d k with Some _ => keys d | None => keys d ++ [k] end.
Proof.
  induction d as [|[k' v'] d IH]; simpl; [reflexivity|].
  destruct (str_eqb k' k) eqn:E; simpl; [reflexivity|].
  rewrite IH. destruct (dict_get d k); reflexivity.
Qed.

Lemma Forall_dict_set {V} (P : str * V -> Prop) (d : dict V) (k : str) (v : V) :
  Forall P d -> P (k, v) -> Forall P (dict_set d k v).
Proof.
  intros F H. induction F as [|[k' v'] d Hx F IH]; simpl.
  - repeat constructor. exact H.
  - destruct (str_eqb k' k) eqn:E.
    + apply str_eqb_eq in E. subst k'. constructor; assumption.
    + constructor; assumption.
Qed.

Lemma NoDup_dict_set {V} (d : dict V) (k : str) (v : V) :
  NoDup (keys d) -> NoDup (keys (dict_set d k v)).
Proof.
  intros N. rewrite keys_dict_set. destruct (dict_get d k) eqn:E; [exact N|].
  apply dict_get_None_keys in E.
  apply NoDup_app; [exact N | repeat constructor; intros [] | ].
  intros x I [<- | []]. contradiction.
Qed.

Lemma dict_del_incl {V} (d : dict V) (k : str) : incl (dict_del d k) d.
Proof.
  induction d as [|[k' v'] d IH]; simpl; [apply incl_refl|].
  destruct (str_eqb k' k).
  - apply incl_tl, incl_refl.
  - apply incl_cons; [left; reflexivity | apply incl_tl, IH].
Qed.

Lemma NoDup_dict_del {V} (d : dict V) (k : str) :
  NoDup (keys d) -> NoDup (keys (dict_del d k)).
Proof.
  induction d as [|[k' v'] d IH]; simpl; intros N; [exact N|].
  inversion N as [|x l X N']; subst.
  destruct (str_eqb k' k); [exact N'|]. simpl. constructor; [|apply IH, N'].
  intros I. apply X. unfold keys in *. apply in_map_iff in I.
  destruct I as [[k2 v2] [<- I]]. apply in_map_iff.
  exists (k2, v2). split; [reflexivity | apply (dict_del_incl d k), I].
Qed.

Section WellFormedFacts.
Context {U : UnicodeData}.

Lemma wf_book_empty : wf_book AddressBook_init.
Proof. split; constructor. Qed.

Lemma Record_init_wf (n : str) (r : record) :
  Record_init n = Ok r -> r = mkRecord n [] None /\ wf_record r.
Proof.
  unfold Record_init. destruct (Name_init n) as [v|] eqn:E; [|discriminate].
  apply Name_init_Ok in E. destruct E as [A ->]. simpl. intros H.
  injection H as <-. split; [reflexivity|].
  repeat split; [exact A | constructor | discriminate].
Qed.

Lemma add_phone_wf (r r' : record) (p : str) :
  add_phone r p = Ok r' -> wf_record r -> name r' = name r /\ wf_record r'.
Proof.
  unfold add_phone. destruct (Phone_init p) as [v|] eqn:E; [|discriminate].
  apply Phone_init_Ok in E. destruct E as [P ->]. simpl.
  intros H (A & Ps & B). injection H as <-. simpl. split; [reflexivity|].
  repeat split; simpl; auto. apply Forall_app. split; auto.
Qed.

Lemma add_birthday_wf (r r' : record) (b : str) :
  add_birthday r b = Ok r' -> wf_record r -> name r' = name r /\ wf_record r'.
Proof.
  unfold add_birthday. destruct (Birthday_init b) as [d|] eqn:E; [|discriminate].
  apply Birthday_init_Ok in E.
  destruct E as (d1 & d2 & m1 & m2 & y1 & y2 & y3 & y4 & _ & _ & _ & _ & V & ->).
  simpl. intros H (A & Ps & B). injection H as <-. simpl. split; [reflexivity|].
  repeat split; simpl; auto. intros x X. injection X as <-. exact V.
Qed.

Lemma edit_phone_loop_wf (ps ps' : list str) (old_phone new_phone : str) :
  edit_phone_loop ps old_phone new_phone = Ok (Some ps') ->
  Forall (fun p => phone_re p = true) ps ->
  Forall (fun p => phone_re p = true) ps'.
Proof.
  revert ps'. induction ps as [|p ps IH]; simpl; intros ps' H F; [discriminate|].
  inversion F as [|x l Hp F']; subst.
  destruct (str_eqb p old_phone).
  - destruct (Phone_init new_phone) as [v|] eqn:E; [|discriminate].
    apply Phone_init_Ok in E. destruct E as [P ->]. simpl in H.
    injection H as <-. constructor; assumption.
  - destruct (edit_phone_loop ps old_phone new_phone) as [[l'|]|]; simpl in H;
      try discriminate.
    injection H as <-. constructor; [exact Hp | apply IH; auto].
Qed.

Lemma edit_phone_wf (r r' : record) (old_phone new_phone : str) (found : bool) :
  edit_phone r old_phone new_phone = Ok (found, r') ->
  wf_record r -> name r' = name r /\ wf_record r'.
Proof.
  unfold edit_phone.
  destruct (edit_phone_loop (phones r) old_phone new_phone) as [[ps'|]|] eqn:E;
    simpl; try discriminate; intros H (A & Ps & B); injection H as _ <-.
  - split; [reflexivity|]. repeat split; simpl; auto.
    apply (edit_phone_loop_wf _ _ _ _ E Ps).
  - split; [reflexivity|]. repeat split; auto.
Qed.

(** [add_record] and [delete] keep a book well formed; so does the
    update of the record found under a key by one of the same name. *)
Lemma add_record_wf (book : AddressBook) (r : record) :
  wf_book book -> wf_record r -> wf_book (add_record book r).
Proof.
  intros [N F] W. unfold add_record. split.
  - apply NoDup_dict_set, N.
  - apply Forall_dict_set; [exact F | split; [reflexivity | exact W]].
Qed.

Lemma delete_wf (book : AddressBook) (n : str) :
  wf_book book -> wf_book (delete book n).
Proof.
  intros [N F]. unfold delete. destruct (dict_get book n); [|split; assumption].
  split.
  - apply NoDup_dict_del, N.
  - apply Forall_forall. intros kr I.
    apply (proj1 (Forall_forall _ _) F), (dict_del_incl book n), I.
Qed.

Lemma find_name (book : AddressBook) (n : str) (r : record) :
  wf_book book -> find book n = Some r -> name r = n /\ wf_record r.
Proof.
  intros [_ F]. unfold find. induction F as [|[k v] l [K W] _ IH]; simpl;
    [discriminate|].
  destruct (str_eqb k n) eqn:E.
  - apply str_eqb_eq in E. intros H. injection H as <-. simpl in K.
    split; [congruence | exact W].
  - exact IH.
Qed.

Lemma update_found_wf (book : AddressBook) (n : str) (r r' : record) :
  wf_book book -> find book n = Some r ->
  name r' = name r -> wf_record r' -> wf_book (dict_set book n r').
Proof.
  intros B Fd E W. destruct (find_name book n r B Fd) as [K _].
  replace n with (name r') by congruence. apply add_record_wf; assumption.
Qed.

End WellFormedFacts.

(** ** The example of section 8 *)

Lemma get_upcoming_birthdays_spec_witness :
  get_upcoming_birthdays june_book monday_10_june_2024
  = Ok [mkEntry (py "Alice") (py "17.06.2024") (py "1234567890")]
  /\ exists e, get_upcoming_birthdays leap_day_book first_of_march_2025 = Raise e.
Proof.
  split.
  - apply (proj1 (get_upcoming_birthdays_spec june_book monday_10_june_2024)).
    reflexivity.
  - apply (proj2 (get_upcoming_birthdays_spec leap_day_book first_of_march_2025)).
    reflexivity.
Defined.

(** C1 as stated fails on a book with a birthday on 29 February whose
    next occurrence would be in a year that is not a leap year: on Monday
    10 June 2024 the steps of the claim list Bob, whose birthday is on the
    Saturday of that week, but the call raises on the record of Eve and
    returns no list. *)
Lemma get_upcoming_birthdays_raises_after_leap_day :
  upcoming_spec leap_day_book monday_10_june_2024
  = [mkEntry (py "Bob") (py "17.06.2024") (py "1234567890")]
  /\ get_upcoming_birthdays leap_day_book monday_10_june_2024
     = Raise (ValueError (py "day is out of range for month")).
Proof. split; reflexivity. Qed.

(** * Further properties of the code *)

(** ** Record.delete_phone *)

Lemma remove_first_present (pre post : list str) (phone : str) :
  ~ In phone pre ->
  remove_first (pre ++ phone :: post) phone = Some (pre ++ post).
Proof.
  induction pre as [|p pre IH]; simpl; intros H.
  - rewrite str_eqb_refl. reflexivity.
  - destruct (str_eqb p phone) eqn:E.
    + apply str_eqb_eq in E. tauto.
    + rewrite IH by tauto. reflexivity.
Qed.

Lemma remove_first_absent (ps : list str) (phone : str) :
  ~ In phone ps -> remove_first ps phone = None.
Proof.
  induction ps as [|p ps IH]; simpl; intros H; [reflexivity|].
  destruct (str_eqb p phone) eqn:E.
  - apply str_eqb_eq in E. tauto.
  - rewrite IH by tauto. reflexivity.
Qed.

(** X1: [delete_phone] removes the first phone equal to its argument,
    keeps the others in their order and answers true; when no phone is
    equal it changes nothing and answers false. *)
Theorem delete_phone_spec (r : record) (phone : str) :
  (forall pre post,
      phones r = pre ++ phone :: post -> ~ In phone pre ->
      delete_phone r phone
      = (true, mkRecord (name r) (pre ++ post) (birthday r)))
  /\ (~ In phone (phones r) -> delete_phone r phone = (false, r)).
Proof.
  unfold delete_phone. split.
  - intros pre post E H. rewrite E, (remove_first_present _ _ _ H). reflexivity.
  - intros H. rewrite (remove_first_absent _ _ H). reflexivity.
Qed.

Lemma delete_phone_spec_witness :
  delete_phone
    (mkRecord (py "Ann") [py "1111111111"; py "2222222222"; py "1111111111"] None)
    (py "1111111111")
  = (true, mkRecord (py "Ann") [py "2222222222"; py "1111111111"] None)
  /\ delete_phone two_phones (py "9999999999") = (false, two_phones).
Proof.
  split.
  - apply (proj1 (delete_phone_spec
                    (mkRecord (py "Ann")
                       [py "1111111111"; py "2222222222"; py "1111111111"] None)
                    (py "1111111111")) [] [py "2222222222"; py "1111111111"]).
    + reflexivity.
    + intros [].
  - apply (proj2 (delete_phone_spec two_phones (py "9999999999"))).
    simpl. intros [H | [H | []]]; discriminate H.
Defined.

Section PhoneRoundTrip.
Context {U : UnicodeData}.

(** X2: a phone added by [add_phone] to a record that did not hold it is
    removed again by [delete_phone], which gives the record back. *)
Theorem add_then_delete_phone (r r' : record) (phone : str) :
  ~ In phone (phones r) ->
  add_phone r phone = Ok r' ->
  delete_phone r' phone = (true, r).
Proof.
  intros H A. unfold add_phone in A.
  destruct (Phone_init phone) as [v|] eqn:E; [|discriminate A].
  apply Phone_init_Ok in E. destruct E as [_ ->]. simpl in A.
  injection A as <-. unfold delete_phone. simpl.
  rewrite (remove_first_present _ [] _ H), app_nil_r.
  destruct r; reflexivity.
Qed.

End PhoneRoundTrip.

Lemma add_then_delete_phone_witness :
  delete_phone
    (mkRecord (py "Alice") [py "1111111111"; py "2222222222"; py "3333333333"] None)
    (py "3333333333")
  = (true, two_phones).
Proof.
  apply (add_then_delete_phone two_phones).
  - simpl. intros [H | [H | []]]; discriminate H.
  - reflexivity.
Defined.

(** ** AddressBook: add_record, find, delete *)

Lemma dict_get_set {V} (d : dict V) (k n : str) (v : V) :
  dict_get (dict_set d k v) n
  = if str_eqb k n then Some v else dict_get d n.
Proof.
  induction d as [|[k' v'] d IH]; simpl; [reflexivity|].
  destruct (str_eqb k' k) eqn:E; simpl.
  - apply str_eqb_eq in E. subst k'. destruct (str_eqb k n); reflexivity.
  - rewrite IH. destruct (str_eqb k' n) eqn:F; [|reflexivity].
    apply str_eqb_eq in F. subst k'. apply str_eqb_neq in E.
    destruct (str_eqb k n) eqn:G; [|reflexivity].
    apply str_eqb_eq in G. congruence.
Qed.

Lemma dict_set_get_same {V} (d : dict V) (k : str) (v : V) :
  dict_get d k = Some v -> dict_set d k v = d.
Proof.
  induction d as [|[k' v'] d IH]; simpl; [discriminate|].
  destruct (str_eqb k' k).
  - intros H. injection H as ->. reflexivity.
  - intros H. rewrite (IH H). reflexivity.
Qed.

Lemma dict_get_del_other {V} (d : dict V) (k n : str) :
  n <> k -> dict_get (dict_del d k) n = dict_get d n.
Proof.
  intros H. induction d as [|[k' v'] d IH]; simpl; [reflexivity|].
  destruct (str_eqb k' k) eqn:E; simpl.
  - apply str_eqb_eq in E. subst k'.
    destruct (str_eqb k n) eqn:F; [|reflexivity].
    apply str_eqb_eq in F. congruence.
  - rewrite IH. reflexivity.
Qed.

Lemma dict_get_del_same {V} (d : dict V) (k : str) :
  NoDup (keys d) -> dict_get (dict_del d k) k = None.
Proof.
  induction d as [|[k' v'] d IH]; simpl; intros N; [reflexivity|].
  inversion N as [|x l X N']; subst.
  destruct (str_eqb k' k) eqn:E; simpl.
  - apply str_eqb_eq in E. subst k'. apply dict_get_None_keys, X.
  - rewrite E. apply IH, N'.
Qed.

(** X3: after [add_record], [find] returns the record under its name,
    and what it returns under every other name is unchanged. *)
Theorem find_add_record (book : AddressBook) (r : record) :
  find (add_record book r) (name r) = Some r
  /\ (forall n, n <> name r -> find (add_record book r) n = find book n).
Proof.
  unfold find, add_record. split.
  - rewrite dict_get_set, str_eqb_refl. reflexivity.
  - intros n H. rewrite dict_get_set.
    destruct (str_eqb (name r) n) eqn:E; [|reflexivity].
    apply str_eqb_eq in E. congruence.
Qed.

Lemma find_add_record_witness :
  find (add_record alice_book alice) (py "Alice") = find alice_book (py "Alice").
Proof.
  apply (proj2 (find_add_record alice_book alice)). discriminate.
Defined.

(** X4: [add_record] under a name that the book holds replaces the
    record where it is, so that the names of the book and their order do
    not change; under a new name it adds the record after the others. *)
Theorem add_record_place (book : AddressBook) (r : record) :
  (forall old, find book (name r) = Some old ->
               keys (add_record book r) = keys book
               /\ length (add_record book r) = length book)
  /\ (find book (name r) = None -> add_record book r = book ++ [(name r, r)]).
Proof.
  unfold find, add_record. split.
  - intros old H. assert (K : keys (dict_set book (name r) r) = keys book)
      by (rewrite keys_dict_set, H; reflexivity).
    split; [exact K|]. unfold keys in K.
    rewrite <- (length_map fst (dict_set book (name r) r)), K.
    apply length_map.
  - apply dict_set_absent.
Qed.

Lemma add_record_place_witness :
  keys (add_record june_book (mkRecord (py "Bob") [py "5555555555"] None))
  = [py "Alice"; py "Bob"; py "Carol"]
  /\ add_record alice_book alice = [(py "Alice", alice_1990); (py "alice", alice)].
Proof.
  split.
  - apply (proj1 (add_record_place june_book
                    (mkRecord (py "Bob") [py "5555555555"] None))
             (mkRecord (py "Bob") [] (Some (mkdate 1985 6 8)))).
    reflexivity.
  - apply (proj2 (add_record_place alice_book alice)). reflexivity.
Defined.

(** X5: after [delete], [find] returns nothing under the deleted name and
    what it returned before under every other name; deleting a name that
    the book does not hold leaves the book as it is. *)
Theorem delete_spec (book : AddressBook) (n : str) :
  (NoDup (keys book) -> find (delete book n) n = None)
  /\ (forall m, m <> n -> find (delete book n) m = find book m)
  /\ (find book n = None -> delete book n = book).
Proof.
  unfold find, delete. split; [|split].
  - intros N. destruct (dict_get book n) eqn:E; [|exact E].
    apply dict_get_del_same, N.
  - intros m H. destruct (dict_get book n); [|reflexivity].
    apply dict_get_del_other, H.
  - intros H. rewrite H. reflexivity.
Qed.

Lemma delete_spec_witness :
  find (delete june_book (py "Bob")) (py "Bob") = None
  /\ find (delete june_book (py "Bob")) (py "Carol") = find june_book (py "Carol")
  /\ delete june_book (py "Dave") = june_book.
Proof.
  split; [|split].
  - apply (proj1 (delete_spec june_book (py "Bob"))).
    repeat constructor; simpl; intuition discriminate.
  - apply (proj1 (proj2 (delete_spec june_book (py "Bob")))). discriminate.
  - apply (proj2 (proj2 (delete_spec june_book (py "Dave")))). reflexivity.
Defined.

(** ** The invariant of the book *)

Lemma remove_first_Forall (P : str -> Prop) (ps ps' : list str) (phone : str) :
  remove_first ps phone = Some ps' -> Forall P ps -> Forall P ps'.
Proof.
  revert ps'. induction ps as [|p ps IH]; simpl; intros ps' H F; [discriminate|].
  inversion F as [|x l Hp F']; subst.
  destruct (str_eqb p phone).
  - injection H as <-. exact F'.
  - destruct (remove_first ps phone) as [l'|]; simpl in H; [|discriminate].
    injection H as <-. constructor; [exact Hp | apply IH; auto].
Qed.

Section Invariant.
Context {U : UnicodeData}.

Lemma delete_phone_wf (r r' : record) (phone : str) (found : bool) :
  delete_phone r phone = (found, r') ->
  wf_record r -> name r' = name r /\ wf_record r'.
Proof.
  unfold delete_phone. destruct (remove_first (phones r) phone) as [ps|] eqn:E;
    intros H (A & Ps & B); injection H as _ <-.
  - split; [reflexivity|]. repeat split; simpl; auto.
    apply (remove_first_Forall _ _ _ _ E Ps).
  - split; [reflexivity|]. repeat split; auto.
Qed.

(** X6: the operations keep the book well formed.  In a book with
    distinct keys, each record under its own name and the fields as the
    constructors accept them, that is still so after [add_record] of a
    record that [Record] has built, after [delete], and after
    [add_phone], [delete_phone], [edit_phone] or [add_birthday] on a
    record that [find] has returned; and [find] returns under a name only
    a record of that name. *)
Theorem operations_keep_wf_book (book : AddressBook) :
  wf_book book ->
  (forall n r, Record_init n = Ok r -> wf_book (add_record book r))
  /\ (forall n, wf_book (delete book n))
  /\ (forall n r,
         find book n = Some r ->
         name r = n
         /\ (forall p r', add_phone r p = Ok r' -> wf_book (dict_set book n r'))
         /\ (forall p f r',
                delete_phone r p = (f, r') -> wf_book (dict_set book n r'))
         /\ (forall o p f r',
                edit_phone r o p = Ok (f, r') -> wf_book (dict_set book n r'))
         /\ (forall b r',
                add_birthday r b = Ok r' -> wf_book (dict_set book n r'))).
Proof.
  intros W. split; [|split].
  - intros n r H. apply add_record_wf; [exact W|].
    apply (Record_init_wf n r H).
  - intros n. apply delete_wf, W.
  - intros n r F. destruct (find_name book n r W F) as [K Wr].
    split; [exact K|]. split; [|split; [|split]].
    + intros p r' H. destruct (add_phone_wf r r' p H Wr) as [E W'].
      apply (update_found_wf book n r r' W F E W').
    + intros p f r' H. destruct (delete_phone_wf r r' p f H Wr) as [E W'].
      apply (update_found_wf book n r r' W F E W').
    + intros o p f r' H. destruct (edit_phone_wf r r' o p f H Wr) as [E W'].
      apply (update_found_wf book n r r' W F E W').
    + intros b r' H. destruct (add_birthday_wf r r' b H Wr) as [E W'].
      apply (update_found_wf book n r r' W F E W').
Qed.

End Invariant.

Lemma operations_keep_wf_book_witness :
  wf_book (add_record alice_book alice)
  /\ wf_book (delete alice_book (py "Alice"))
  /\ wf_book [(py "Alice",
               mkRecord (py "Alice") [py "1234567890"; py "0987654321"]
                 (Some (mkdate 1990 6 15)))].
Proof.
  destruct (operations_keep_wf_book alice_book alice_book_wf) as (A & D & F).
  split; [|split].
  - apply (A (py "alice")). reflexivity.
  - apply D.
  - apply (proj1 (proj2 (F (py "Alice") alice_1990 eq_refl)) (py "0987654321")).
    reflexivity.
Defined.

(** ** The text of a birthday *)

Section BirthdayCanonical.
Context {U : UnicodeData}.

Lemma digit_char_of_ascii (c : N) :
  is_ascii_digit c = true -> digit_char (Z.of_N c - 48) = c.
Proof.
  intros H. apply in_range_spec in H. unfold digit_char. lia.
Qed.

Lemma pad2_int_ascii (a b : N) :
  is_ascii_digit a = true -> is_ascii_digit b = true ->
  pad2 (int [a; b]) = [a; b].
Proof.
  intros A B. rewrite (int_ascii2 a b A B). unfold pad2.
  pose proof A as A'. pose proof B as B'.
  apply in_range_spec in A', B'.
  replace ((10 * (Z.of_N a - 48) + (Z.of_N b - 48)) / 10 mod 10)
    with (Z.of_N a - 48) by (Z.div_mod_to_equations; lia).
  replace ((10 * (Z.of_N a - 48) + (Z.of_N b - 48)) mod 10)
    with (Z.of_N b - 48) by (Z.div_mod_to_equations; lia).
  rewrite !digit_char_of_ascii by assumption. reflexivity.
Qed.

Lemma pad4_int_ascii (a b c d : N) :
  is_ascii_digit a = true -> is_ascii_digit b = true ->
  is_ascii_digit c = true -> is_ascii_digit d = true ->
  pad4 (int [a; b; c; d]) = [a; b; c; d].
Proof.
  intros A B C D. rewrite (int_ascii4 a b c d A B C D). unfold pad4.
  pose proof A as A'. pose proof B as B'. pose proof C as C'. pose proof D as D'.
  apply in_range_spec in A', B', C', D'.
  set (x := Z.of_N a - 48) in *. set (y := Z.of_N b - 48) in *.
  set (z := Z.of_N c - 48) in *. set (w := Z.of_N d - 48) in *.
  assert (0 <= x <= 9 /\ 0 <= y <= 9 /\ 0 <= z <= 9 /\ 0 <= w <= 9)
    as (Hx & Hy & Hz & Hw) by (unfold x, y, z, w; lia).
  replace ((1000 * x + 100 * y + 10 * z + w) / 1000 mod 10) with x
    by (Z.div_mod_to_equations; lia).
  replace ((1000 * x + 100 * y + 10 * z + w) / 100 mod 10) with y
    by (Z.div_mod_to_equations; lia).
  replace ((1000 * x + 100 * y + 10 * z + w) / 10 mod 10) with z
    by (Z.div_mod_to_equations; lia).
  replace ((1000 * x + 100 * y + 10 * z + w) mod 10) with w
    by (Z.div_mod_to_equations; lia).
  unfold x, y, z, w. rewrite !digit_char_of_ascii by assumption. reflexivity.
Qed.

Lemma strftime_of_parsed (d1 d2 m1 m2 y1 y2 y3 y4 : N) (d : date) :
  forallb is_ascii_digit [d1; d2; m1; m2; y1; y2; y3; y4] = true ->
  Birthday_init [d1; d2; 46; m1; m2; 46; y1; y2; y3; y4]%N = Ok d ->
  1000 <= year d ->
  strftime_dmY d = [d1; d2; 46; m1; m2; 46; y1; y2; y3; y4]%N.
Proof.
  simpl. rewrite !andb_true_iff.
  intros (A1 & A2 & A3 & A4 & A5 & A6 & A7 & A8 & _) H K.
  apply Birthday_init_Ok in H.
  destruct H as (e1 & e2 & n1 & n2 & z1 & z2 & z3 & z4 & E & _ & _ & _ & _ & ->).
  injection E as <- <- <- <- <- <- <- <-.
  unfold strftime_dmY. rewrite (year_text_four _ K).
  simpl year. simpl month. simpl day.
  rewrite !pad2_int_ascii, pad4_int_ascii by assumption. reflexivity.
Qed.

(** X7: for a date text of ASCII digits that [Birthday] accepts, the
    text that [strftime("%d.%m.%Y")] writes for the value stored, which
    is what [show_birthday], [print_contacts] and [save_address_book]
    show, is the text that was typed when the year is 1000 or later, and
    another, shorter text when the year is earlier. *)
Theorem Birthday_text_unchanged (d1 d2 m1 m2 y1 y2 y3 y4 : N) (d : date) :
  forallb is_ascii_digit [d1; d2; m1; m2; y1; y2; y3; y4] = true ->
  Birthday_init [d1; d2; 46; m1; m2; 46; y1; y2; y3; y4]%N = Ok d ->
  (1000 <= year d ->
   strftime_dmY d = [d1; d2; 46; m1; m2; 46; y1; y2; y3; y4]%N)
  /\ (year d < 1000 ->
      (length (strftime_dmY d) < 10)%nat
      /\ strftime_dmY d <> [d1; d2; 46; m1; m2; 46; y1; y2; y3; y4]%N).
Proof.
  intros A H. split.
  - intros K. revert A. simpl. rewrite !andb_true_iff.
    intros (A1 & A2 & A3 & A4 & A5 & A6 & A7 & A8 & _).
    apply Birthday_init_Ok in H.
    destruct H as (e1 & e2 & n1 & n2 & z1 & z2 & z3 & z4 & E & _ & _ & _ & _ & ->).
    injection E as <- <- <- <- <- <- <- <-.
    unfold strftime_dmY. rewrite (year_text_four _ K).
    simpl year. simpl month. simpl day.
    rewrite !pad2_int_ascii, pad4_int_ascii by assumption. reflexivity.
  - intros K. pose proof (strftime_short d K) as L. split; [exact L|].
    intros E. rewrite E in L. simpl in L. lia.
Qed.

End BirthdayCanonical.

Lemma Birthday_text_unchanged_witness :
  strftime_dmY (mkdate 2024 2 29) = py "29.02.2024"
  /\ strftime_dmY (mkdate 990 6 15) <> py "15.06.0990".
Proof.
  split.
  - apply (Birthday_text_unchanged 50 57 48 50 50 48 50 52 (mkdate 2024 2 29));
      [reflexivity | reflexivity | simpl; lia].
  - apply (Birthday_text_unchanged 49 53 48 54 48 57 57 48 (mkdate 990 6 15));
      [reflexivity | reflexivity | simpl; lia].
Defined.

(** ** The entries of the upcoming birthdays *)

Lemma upcoming_loop_entries (today : date) (records : list record) :
  forall upcoming l,
    upcoming_loop today records upcoming = Ok l ->
    forall e, In e l ->
              In e upcoming
              \/ exists r, In r records /\ upcoming_step today r = Ok (Some e).
Proof.
  induction records as [|r records IH]; simpl; intros upcoming l H e I.
  - injection H as <-. left. exact I.
  - destruct (upcoming_step today r) as [o|] eqn:S; simpl in H; [|discriminate].
    destruct (IH _ _ H e I) as [J | [r' [J K]]].
    + destruct o as [e'|]; [|left; exact J].
      apply in_app_or in J. destruct J as [J | [<- | []]]; [left; exact J|].
      right. exists r. split; [left; reflexivity | exact S].
    + right. exists r'. split; [right; exact J | exact K].
Qed.

Lemma occurrence_valid (today b : date) :
  occurrence_defined today b = true ->
  valid_date (occurrence today b) = true
  /\ year today <= year (occurrence today b) <= year today + 1.
Proof.
  unfold occurrence_defined, occurrence. intros D.
  apply andb_true_iff in D. destruct D as [D1 D2].
  destruct (date_ltb (this_year today b) today); simpl; split; auto; lia.
Qed.

(** What a turn of the loop that appends an entry has computed. *)
Lemma upcoming_step_entry (today : date) (r : record) (e : entry) :
  upcoming_step today r = Ok (Some e) ->
  exists b,
    birthday r = Some b
    /\ occurrence_defined today b = true
    /\ in_window today b = true
    /\ e = mkEntry (name r) (strftime_dmY (shifted (occurrence today b)))
             (first_phone r).
Proof.
  intros H. destruct (step_defined today r) eqn:D.
  - rewrite (upcoming_step_spec today r D) in H. injection H as H.
    unfold spec_entry in H. unfold step_defined in D.
    destruct (birthday r) as [b|]; [|discriminate H].
    exists b. apply andb_true_iff in D. destruct D as [D _].
    destruct (in_window today b); [|discriminate H].
    injection H as <-. auto.
  - destruct (upcoming_step_undefined today r D) as [x E].
    rewrite E in H. discriminate H.
Qed.

(** X8: every entry that [get_upcoming_birthdays] returns comes from a
    record of the book that has a birthday; it gives the name of that
    record and its first phone, or the text for none; its date is 0 to 2
    days after the occurrence of the birthday, never a Saturday or a
    Sunday, and 0 to 8 days after the reference date. *)
Theorem upcoming_entries_sound
  (book : AddressBook) (today : date) (l : list entry) :
  year today + 1 < MAXYEAR ->
  get_upcoming_birthdays book today = Ok l ->
  forall e, In e l ->
    exists r b d,
      In r (values book) /\ birthday r = Some b
      /\ entry_name e = name r /\ entry_phone e = first_phone r
      /\ congratulation_date e = strftime_dmY d
      /\ weekday d < 5
      /\ 0 <= toordinal d - toordinal (occurrence today b) <= 2
      /\ 0 <= toordinal d - toordinal today <= 8.
Proof.
  intros Y H e I. unfold get_upcoming_birthdays in H.
  destruct (upcoming_loop_entries today (values book) [] l H e I)
    as [[] | [r [J S]]].
  destruct (upcoming_step_entry today r e S) as (b & B & D & W & ->).
  destruct (occurrence_valid today b D) as [V Yo].
  exists r, b, (shifted (occurrence today b)).
  cbn [entry_name entry_phone congratulation_date].
  repeat (split; [solve [auto]|]).
  unfold in_window in W. apply andb_true_iff in W. destruct W as [W1 W2].
  apply Z.leb_le in W1. apply Z.ltb_lt in W2.
  assert (Wd : 0 <= weekday (occurrence today b) < 7)
    by (apply Z.mod_pos_bound; lia).
  destruct (shifted_on_weekday (occurrence today b) V) as [[A ->] | (A & M & T)];
    [lia | lia | rewrite T, M; lia].
Qed.

Lemma upcoming_entries_sound_witness :
  exists r b d,
    In r (values june_book) /\ birthday r = Some b
    /\ py "Alice" = name r /\ py "1234567890" = first_phone r
    /\ py "17.06.2024" = strftime_dmY d
    /\ weekday d < 5
    /\ 0 <= toordinal d - toordinal (occurrence monday_10_june_2024 b) <= 2
    /\ 0 <= toordinal d - toordinal monday_10_june_2024 <= 8.
Proof.
  apply (upcoming_entries_sound june_book monday_10_june_2024
           [mkEntry (py "Alice") (py "17.06.2024") (py "1234567890")]
           ltac:(reflexivity) ltac:(reflexivity)
           (mkEntry (py "Alice") (py "17.06.2024") (py "1234567890"))).
  left. reflexivity.
Defined.

(** ** What load_address_book returns *)

Section LoadedBooks.
Context {U : UnicodeData}.

Lemma load_phones_wf (ps : list json) :
  forall r r',
    load_phones r ps = Ok r' -> wf_record r ->
    name r' = name r /\ wf_record r'.
Proof.
  induction ps as [|p ps IH]; simpl; intros r r' H W.
  - injection H as <-. auto.
  - destruct (as_str p) as [v|]; simpl in H; [|discriminate].
    destruct (add_phone r v) as [r1|] eqn:A; simpl in H; [|discriminate].
    destruct (add_phone_wf r r1 v A W) as [E1 W1].
    destruct (IH r1 r' H W1) as [E2 W2]. split; [congruence | exact W2].
Qed.

Lemma load_item_wf (book book' : AddressBook) (n : str) (info : json) :
  load_item book n info = Ok book' -> wf_book book -> wf_book book'.
Proof.
  unfold load_item. intros H W.
  destruct (Record_init n) as [r0|] eqn:R; cbn [bind] in H; [|discriminate].
  destruct (Record_init_wf n r0 R) as [_ W0].
  destruct (json_get info (py "phones") (JList [])) as [ps|]; cbn [bind] in H;
    [|discriminate].
  destruct (iterate ps) as [items|]; cbn [bind] in H; [|discriminate].
  destruct (load_phones r0 items) as [r1|] eqn:L; cbn [bind] in H; [|discriminate].
  destruct (load_phones_wf items r0 r1 L W0) as [_ W1].
  destruct (json_get info (py "birthday") JNull) as [b|]; cbn [bind] in H;
    [|discriminate].
  destruct (truthy b).
  - destruct (as_str b) as [v|]; cbn [bind] in H; [|discriminate].
    destruct (add_birthday r1 v) as [r2|] eqn:A; cbn [bind] in H; [|discriminate].
    destruct (add_birthday_wf r1 r2 v A W1) as [_ W2].
    injection H as <-. apply add_record_wf; assumption.
  - cbn [bind] in H. injection H as <-. apply add_record_wf; assumption.
Qed.

Lemma load_items_wf (items : dict json) :
  forall book book',
    load_items book items = Ok book' -> wf_book book -> wf_book book'.
Proof.
  induction items as [|[n info] items IH]; simpl; intros book book' H W.
  - injection H as <-. exact W.
  - destruct (load_item book n info) as [b1|] eqn:L; simpl in H; [|discriminate].
    apply (IH b1 book' H). apply (load_item_wf book b1 n info L W).
Qed.

(** X9: whatever the file holds, a book that [load_address_book] returns
    is well formed: its names are distinct and made of letters, every
    record is stored under its name, every phone is ten digits and every
    birthday a date of the calendar.  A file with anything else makes the
    load raise. *)
Theorem load_address_book_wf
  (fs : filesystem) (filename : str) (book : AddressBook) :
  load_address_book fs filename = Ok book -> wf_book book.
Proof.
  unfold load_address_book. intros H.
  destruct (dict_get fs filename) as [f|].
  - destruct (json_load f) as [j|]; simpl in H; [|discriminate].
    destruct j; try discriminate.
    apply (load_items_wf l AddressBook_init book H). apply wf_book_empty.
  - injection H as <-. apply wf_book_empty.
Qed.

End LoadedBooks.

Lemma load_address_book_wf_witness :
  wf_book [(py "Zed", mkRecord (py "Zed") [py "0123456789"] None)].
Proof.
  apply (load_address_book_wf
           [(py "contacts.json",
             JsonText (JDict [(py "Zed",
                               JDict [(py "phones",
                                       JList [JStr (py "0123456789")])])]))]
           (py "contacts.json")).
  reflexivity.
Defined.

(** ** The handlers *)

Lemma input_error_caught (o : outcome) :
  caught o -> exists reply, input_error o = (Ok reply, snd o).
Proof.
  destruct o as [[reply|e] book]; unfold caught; simpl.
  - eauto.
  - destruct e; simpl; intros H; try contradiction; eauto.
Qed.

Lemma dict_set_app_last {V} (d : dict V) (k : str) (v v' : V) :
  dict_get d k = None -> dict_set (d ++ [(k, v)]) k v' = d ++ [(k, v')].
Proof.
  induction d as [|[k' w] d IH]; simpl; intros H.
  - rewrite str_eqb_refl. reflexivity.
  - destruct (str_eqb k' k); [discriminate H|]. rewrite (IH H). reflexivity.
Qed.

Section HandlerFacts.
Context {U : UnicodeData}.

Lemma phone_re_nonempty (phone : str) : phone_re phone = true -> phone <> [].
Proof. intros H ->. discriminate H. Qed.

Lemma Record_init_raises (n : str) (e : exn) :
  Record_init n = Raise e -> e = InvalidName /\ isalpha n = false.
Proof.
  unfold Record_init. destruct (isalpha n) eqn:A.
  - rewrite (Name_init_alpha _ A). discriminate.
  - rewrite (Name_init_not_alpha _ A). simpl. intros H. injection H as <-. auto.
Qed.

Lemma add_phone_raises (r : record) (p : str) (e : exn) :
  add_phone r p = Raise e -> e = InvalidPhone.
Proof.
  unfold add_phone. destruct (phone_re p) eqn:P.
  - rewrite (Phone_init_match _ P). discriminate.
  - rewrite (Phone_init_no_match _ P). simpl. intros H. injection H as <-. auto.
Qed.

Lemma edit_phone_loop_raises (ps : list str) (o p : str) (e : exn) :
  edit_phone_loop ps o p = Raise e -> e = InvalidPhone.
Proof.
  induction ps as [|x ps IH]; simpl; [discriminate|].
  destruct (str_eqb x o).
  - destruct (phone_re p) eqn:P.
    + rewrite (Phone_init_match _ P). discriminate.
    + rewrite (Phone_init_no_match _ P). simpl. intros H. injection H as <-. auto.
  - destruct (edit_phone_loop ps o p); simpl; [discriminate|].
    intros H. injection H as <-. apply IH. reflexivity.
Qed.

Lemma edit_phone_raises (r : record) (o p : str) (e : exn) :
  edit_phone r o p = Raise e -> e = InvalidPhone.
Proof.
  unfold edit_phone.
  destruct (edit_phone_loop (phones r) o p) as [[ps|]|x] eqn:E; simpl;
    try discriminate.
  intros H. injection H as <-. apply (edit_phone_loop_raises _ _ _ _ E).
Qed.

Lemma add_birthday_raises (r : record) (b : str) (e : exn) :
  add_birthday r b = Raise e -> e = InvalidDate.
Proof.
  unfold add_birthday.
  destruct (Birthday_init_total b) as [[d ->] | ->]; simpl; [discriminate|].
  intros H. injection H as <-. reflexivity.
Qed.

(** X10: [add_contact] with a valid phone.  For a valid name that the
    book does not hold, the book gains, after the others, a record of that
    name with that one phone and the reply is that the contact was added;
    for a name that the book holds, the phone is added after the phones
    of its record and the reply is that the contact was updated. *)
Theorem add_contact_valid_phone
  (book : AddressBook) (n phone : str) (rest : list str) :
  phone_re phone = true ->
  (find book n = None -> isalpha n = true ->
   add_contact (n :: phone :: rest) book
   = (Ok (dir_file_color (py "ADD") (py "Contact added.")),
      book ++ [(n, mkRecord n [phone] None)]))
  /\ (forall r,
         find book n = Some r ->
         add_contact (n :: phone :: rest) book
         = (Ok (dir_file_color (py "ADD") (py "Contact updated.")),
            dict_set book n
              (mkRecord (name r) (phones r ++ [phone]) (birthday r)))).
Proof.
  intros P. pose proof (phone_re_nonempty phone P) as NE.
  assert (E : negb (is_empty phone) = true)
    by (destruct phone; [congruence | reflexivity]).
  unfold add_contact, add_contact_body. split.
  - intros F A. rewrite F. unfold Record_init.
    rewrite (Name_init_alpha _ A). cbn [bind]. rewrite E.
    unfold add_phone. rewrite (Phone_init_match _ P). cbn [bind name phones birthday].
    unfold add_record. cbn [name]. rewrite (dict_set_absent _ _ _ F).
    rewrite (dict_set_app_last _ _ _ _ F). reflexivity.
  - intros r F. rewrite F, E. unfold add_phone.
    rewrite (Phone_init_match _ P). reflexivity.
Qed.

(** X11: the calls of [add_contact] that leave the book as it was, each
    with a warning as reply: fewer than two arguments; a name that the
    book does not hold and that is not made of letters only; a name that
    the book holds with a phone that is not empty and not valid. *)
Theorem add_contact_rejected (book : AddressBook) :
  (forall args, (length args < 2)%nat ->
                add_contact args book
                = input_error (Raise (unpack_error 2 (length args)), book)
                /\ exists reply, add_contact args book = (Ok reply, book))
  /\ (forall n phone rest,
         find book n = None -> isalpha n = false ->
         add_contact (n :: phone :: rest) book
         = (Ok (value_warning (py "Name must contain only letters.")), book))
  /\ (forall n phone rest r,
         find book n = Some r -> phone <> [] -> phone_re phone = false ->
         add_contact (n :: phone :: rest) book
         = (Ok (value_warning (py "Phone number must be exactly 10 digits.")),
            book)).
Proof.
  unfold add_contact, add_contact_body. split; [|split].
  - intros args L.
    assert (E : match args with
                | n :: phone :: _ => False
                | _ => True
                end) by (destruct args as [|a [|b args]]; simpl in *; auto; lia).
    destruct args as [|a [|b args]]; try contradiction;
      (split; [reflexivity | eexists; reflexivity]).
  - intros n phone rest F A. rewrite F. unfold Record_init.
    rewrite (Name_init_not_alpha _ A). reflexivity.
  - intros n phone rest r F NE P. rewrite F.
    destruct phone as [|c phone]; [congruence|]. cbn [is_empty negb].
    unfold add_phone. rewrite (Phone_init_no_match _ P). reflexivity.
Qed.

End HandlerFacts.

Lemma add_contact_valid_phone_witness :
  add_contact [py "Dave"; py "5555555555"] alice_book
  = (Ok (dir_file_color (py "ADD") (py "Contact added.")),
     [(py "Alice", alice_1990);
      (py "Dave", mkRecord (py "Dave") [py "5555555555"] None)])
  /\ add_contact [py "Alice"; py "5555555555"; py "ignored"] alice_book
     = (Ok (dir_file_color (py "ADD") (py "Contact updated.")),
        [(py "Alice",
          mkRecord (py "Alice") [py "1234567890"; py "5555555555"]
            (Some (mkdate 1990 6 15)))]).
Proof.
  split.
  - destruct (add_contact_valid_phone alice_book (py "Dave") (py "5555555555") [])
      as [A _]; [reflexivity|].
    apply A; reflexivity.
  - destruct (add_contact_valid_phone alice_book (py "Alice") (py "5555555555")
                [py "ignored"]) as [_ B]; [reflexivity|].
    apply (B alice_1990). reflexivity.
Defined.

Lemma add_contact_rejected_witness :
  (exists reply, add_contact [py "Alice"] alice_book = (Ok reply, alice_book))
  /\ add_contact [py "R2D2"; py "5555555555"] alice_book
     = (Ok (value_warning (py "Name must contain only letters.")), alice_book)
  /\ add_contact [py "Alice"; py "555"] alice_book
     = (Ok (value_warning (py "Phone number must be exactly 10 digits.")),
        alice_book).
Proof.
  destruct (add_contact_rejected alice_book) as (A & B & C).
  split; [|split].
  - apply (A [py "Alice"]). simpl. lia.
  - apply B; reflexivity.
  - apply (C (py "Alice") (py "555") [] alice_1990);
      [reflexivity | discriminate | reflexivity].
Defined.

Section HandlersNeverRaise.
Context {U : UnicodeData}.

Lemma add_contact_body_caught (args : list str) (book : AddressBook) :
  caught (add_contact_body args book).
Proof.
  unfold add_contact_body, caught.
  destruct args as [|n [|phone rest]]; simpl; auto.
  destruct (find book n) as [r|].
  - destruct (negb (is_empty phone)); simpl; auto.
    destruct (add_phone r phone) as [r'|e] eqn:A; simpl; auto.
    rewrite (add_phone_raises _ _ _ A). exact I.
  - destruct (Record_init n) as [r|e] eqn:R; simpl.
    + destruct (negb (is_empty phone)); simpl; auto.
      destruct (add_phone r phone) as [r'|e] eqn:A; simpl; auto.
      rewrite (add_phone_raises _ _ _ A). exact I.
    + destruct (Record_init_raises _ _ R) as [-> _]. exact I.
Qed.

Lemma change_contact_body_caught (args : list str) (book : AddressBook) :
  caught (change_contact_body args book).
Proof.
  unfold change_contact_body, caught.
  destruct args as [|n [|o [|p rest]]]; simpl; auto.
  destruct (find book n) as [r|]; simpl; auto.
  destruct (edit_phone r o p) as [[f r']|e] eqn:E; simpl; auto.
  rewrite (edit_phone_raises _ _ _ _ E). exact I.
Qed.

Lemma add_birthday_body_caught (args : list str) (book : AddressBook) :
  caught (add_birthday_body args book).
Proof.
  unfold add_birthday_body, caught.
  destruct args as [|n [|b rest]]; simpl; auto.
  destruct (find book n) as [r|].
  - destruct (add_birthday r b) as [r'|e] eqn:A; simpl; auto.
    rewrite (add_birthday_raises _ _ _ A). exact I.
  - destruct (Record_init n) as [r|e] eqn:R; simpl.
    + destruct (add_birthday r b) as [r'|e] eqn:A; simpl; auto.
      rewrite (add_birthday_raises _ _ _ A). exact I.
    + destruct (Record_init_raises _ _ R) as [-> _]. exact I.
Qed.

Lemma show_contact_body_caught (args : list str) (book : AddressBook) :
  caught (show_contact_body args book)
  /\ snd (show_contact_body args book) = book.
Proof.
  unfold show_contact_body, caught.
  destruct args as [|n rest]; simpl; auto.
  destruct (find book n); simpl; auto.
Qed.

Lemma show_birthday_body_caught (args : list str) (book : AddressBook) :
  caught (show_birthday_body args book)
  /\ snd (show_birthday_body args book) = book.
Proof.
  unfold show_birthday_body, caught.
  destruct args as [|n rest]; simpl; auto.
  destruct (find book n) as [r|]; simpl; auto.
  destruct (birthday r); simpl; auto.
Qed.

Lemma delete_contact_body_caught (args : list str) (book : AddressBook) :
  caught (delete_contact_body args book).
Proof.
  unfold delete_contact_body, caught.
  destruct args as [|n rest]; simpl; auto.
  destruct (find book n); simpl; auto.
Qed.

(** X12: no handler that works on the contacts raises, whatever its
    arguments and the book: [add_contact], [change_contact],
    [show_contact], [add_birthday], [show_birthday] and [delete_contact]
    always return a reply, the exceptions of their bodies being all
    turned into warnings; the two that only show leave the book as it
    is. *)
Theorem handlers_never_raise (args : list str) (book : AddressBook) :
  (exists reply book', add_contact args book = (Ok reply, book'))
  /\ (exists reply book', change_contact args book = (Ok reply, book'))
  /\ (exists reply, show_contact args book = (Ok reply, book))
  /\ (exists reply book', add_birthday_handler args book = (Ok reply, book'))
  /\ (exists reply, show_birthday args book = (Ok reply, book))
  /\ (exists reply book', delete_contact args book = (Ok reply, book')).
Proof.
  repeat split.
  - destruct (input_error_caught _ (add_contact_body_caught args book)) as [x E].
    exists x. eexists. exact E.
  - destruct (input_error_caught _ (change_contact_body_caught args book))
      as [x E].
    exists x. eexists. exact E.
  - destruct (show_contact_body_caught args book) as [C S].
    destruct (input_error_caught _ C) as [x E]. exists x.
    unfold show_contact. rewrite E, S. reflexivity.
  - destruct (input_error_caught _ (add_birthday_body_caught args book))
      as [x E].
    exists x. eexists. exact E.
  - destruct (show_birthday_body_caught args book) as [C S].
    destruct (input_error_caught _ C) as [x E]. exists x.
    unfold show_birthday. rewrite E, S. reflexivity.
  - destruct (input_error_caught _ (delete_contact_body_caught args book))
      as [x E].
    exists x. eexists. exact E.
Qed.

(** X13: [change_contact].  Fewer than three arguments (the warning of
    the failed unpacking, with their number), an unknown name, an old
    phone that the record does not hold, and an old phone that it holds
    with a new one that is not valid all leave the book as it was, each
    with its warning; with the old phone first found after [pre]
    and a valid new phone, the new phone takes its place in the record
    of that name. *)
Theorem change_contact_spec (book : AddressBook) :
  (forall args,
      (length args < 3)%nat ->
      change_contact args book
      = (Ok (value_warning
               (py "not enough values to unpack (expected at least 3, got "
                ++ str_of_Z (Z.of_nat (length args)) ++ py ")")),
         book))
  /\ (forall n o p rest,
         find book n = None ->
         change_contact (n :: o :: p :: rest) book
         = (Ok (key_warning (py "Contact not found.")), book))
  /\ (forall n o p rest r,
         find book n = Some r -> ~ In o (phones r) ->
         change_contact (n :: o :: p :: rest) book
         = (Ok (dir_file_color (py "WARN") (py "Old phone number not found.")),
            book))
  /\ (forall n o p rest r,
         find book n = Some r -> In o (phones r) -> phone_re p = false ->
         change_contact (n :: o :: p :: rest) book
         = (Ok (value_warning (py "Phone number must be exactly 10 digits.")),
            book))
  /\ (forall n o p rest r pre post,
         find book n = Some r -> phones r = pre ++ o :: post -> ~ In o pre ->
         phone_re p = true ->
         change_contact (n :: o :: p :: rest) book
         = (Ok (dir_file_color (py "CHANGE") (py "Contact updated.")),
            dict_set book n
              (mkRecord (name r) (pre ++ p :: post) (birthday r)))).
Proof.
  unfold change_contact, change_contact_body.
  split; [|split; [|split; [|split]]].
  - intros args L.
    destruct args as [|a [|b [|c args]]]; simpl in L; try lia; reflexivity.
  - intros n o p rest F. rewrite F. reflexivity.
  - intros n o p rest r F A. rewrite F.
    unfold edit_phone. rewrite (edit_phone_loop_absent _ _ _ A). cbn [bind].
    rewrite (dict_set_get_same book n r F). reflexivity.
  - intros n o p rest r F A P. rewrite F.
    assert (E : edit_phone r o p = Raise InvalidPhone).
    { unfold edit_phone.
      destruct (edit_phone_loop (phones r) o p) as [[ps|]|e] eqn:L.
      - exfalso. clear F. revert ps L. induction (phones r) as [|x l IH];
          simpl; intros ps L; [destruct A|].
        destruct (str_eqb x o) eqn:X.
        + rewrite (Phone_init_no_match _ P) in L. discriminate L.
        + apply str_eqb_neq in X. destruct A as [A | A]; [congruence|].
          destruct (edit_phone_loop l o p) as [[ps'|]|]; simpl in L;
            try discriminate L.
          apply (IH A ps' eq_refl).
      - exfalso. clear F. revert L. induction (phones r) as [|x l IH];
          simpl; intros L; [destruct A|].
        destruct (str_eqb x o) eqn:X.
        + rewrite (Phone_init_no_match _ P) in L. discriminate L.
        + apply str_eqb_neq in X. destruct A as [A | A]; [congruence|].
          destruct (edit_phone_loop l o p) as [[ps'|]|]; simpl in L;
            try discriminate L.
          apply (IH A eq_refl).
      - simpl. rewrite (edit_phone_loop_raises _ _ _ _ L). reflexivity. }
    rewrite E. reflexivity.
  - intros n o p rest r pre post F E A P. rewrite F.
    unfold edit_phone. rewrite E, (edit_phone_loop_first _ _ _ _ A).
    rewrite (Phone_init_match _ P). reflexivity.
Qed.

End HandlersNeverRaise.

Lemma change_contact_spec_witness :
  change_contact [py "Alice"; py "1234567890"; py "5555555555"] alice_book
  = (Ok (dir_file_color (py "CHANGE") (py "Contact updated.")),
     [(py "Alice",
       mkRecord (py "Alice") [py "5555555555"] (Some (mkdate 1990 6 15)))])
  /\ change_contact [py "Alice"; py "0000000000"; py "bad"] alice_book
     = (Ok (dir_file_color (py "WARN") (py "Old phone number not found.")),
        alice_book)
  /\ change_contact [py "Alice"; py "1234567890"; py "bad"] alice_book
     = (Ok (value_warning (py "Phone number must be exactly 10 digits.")),
        alice_book)
  /\ change_contact [py "Zoe"; py "1234567890"; py "5555555555"] alice_book
     = (Ok (key_warning (py "Contact not found.")), alice_book)
  /\ change_contact [py "Alice"; py "1234567890"] alice_book
     = (Ok (value_warning
              (py "not enough values to unpack (expected at least 3, got 2)")),
        alice_book).
Proof.
  destruct (change_contact_spec alice_book) as (A & B & C & D & E).
  split; [|split; [|split; [|split]]].
  - apply (E (py "Alice") (py "1234567890") (py "5555555555") [] alice_1990 [] []);
      [reflexivity | reflexivity | intros [] | reflexivity].
  - apply (C (py "Alice") (py "0000000000") (py "bad") [] alice_1990);
      [reflexivity | simpl; intros [H | []]; discriminate H].
  - apply (D (py "Alice") (py "1234567890") (py "bad") [] alice_1990);
      [reflexivity | left; reflexivity | reflexivity].
  - apply B. reflexivity.
  - apply (A [py "Alice"; py "1234567890"]). simpl. lia.
Defined.

Section DeleteAndBirthday.
Context {U : UnicodeData}.

(** X14: [delete_contact] on a name that the book does not hold replies
    with the warning of a missing contact and leaves the book as it was;
    on a name that it holds it removes the record, so that [find] no
    longer returns one under that name, and leaves every other name as it
    was; without an argument it replies with the warning of the failed
    unpacking and leaves the book as it was. *)
Theorem delete_contact_spec (book : AddressBook) :
  delete_contact [] book
  = (Ok (value_warning
           (py "not enough values to unpack (expected at least 1, got 0)")),
     book)
  /\ (forall n rest,
         find book n = None ->
         delete_contact (n :: rest) book
         = (Ok (key_warning (py "Contact not found.")), book))
  /\ (forall n rest r,
         find book n = Some r ->
         exists book',
           delete_contact (n :: rest) book
           = (Ok (dir_file_color (py "DELETE")
                    (py "Contact " ++ n ++ py " deleted.")), book')
           /\ (NoDup (keys book) -> find book' n = None)
           /\ (forall m, m <> n -> find book' m = find book m)).
Proof.
  unfold delete_contact, delete_contact_body. split; [|split].
  - reflexivity.
  - intros n rest F. rewrite F. reflexivity.
  - intros n rest r F. rewrite F. exists (delete book n).
    split; [reflexivity|]. unfold delete, find in *. rewrite F. split.
    + apply dict_get_del_same.
    + intros m H. apply dict_get_del_other, H.
Qed.

Lemma add_birthday_handler_spec_aux
  (book : AddressBook) (n b : str) (rest : list str) :
  (forall r d,
      find book n = Some r -> Birthday_init b = Ok d ->
      add_birthday_handler (n :: b :: rest) book
      = (Ok (dir_file_color (py "ADD")
               (py "Birthday for " ++ n ++ py " added/updated.")),
         dict_set book n (mkRecord (name r) (phones r) (Some d))))
  /\ (forall d,
         find book n = None -> isalpha n = true -> Birthday_init b = Ok d ->
         add_birthday_handler (n :: b :: rest) book
         = (Ok (dir_file_color (py "ADD")
                  (py "Birthday for " ++ n ++ py " added/updated.")),
            book ++ [(n, mkRecord n [] (Some d))])).
Proof.
  unfold add_birthday_handler, add_birthday_body, add_birthday. split.
  - intros r d F B. rewrite F, B. reflexivity.
  - intros d F A B. rewrite F. unfold Record_init.
    rewrite (Name_init_alpha _ A). cbn [bind]. rewrite B.
    cbn [bind name phones birthday]. unfold add_record. cbn [name].
    rewrite (dict_set_absent _ _ _ F), (dict_set_app_last _ _ _ _ F).
    reflexivity.
Qed.

(** X15: the handler [add_birthday].  With a valid date, the record of a
    name that the book holds gets that birthday in place of the one it
    had, and a valid name that the book does not hold gets a new record
    with that birthday.  With a date that is not valid the reply is a
    warning; the book is then as it was when it holds the name, but has
    gained an empty record of a valid name that it did not hold. *)
Theorem add_birthday_handler_spec (book : AddressBook) (n b : str) (rest : list str) :
  (forall r d,
      find book n = Some r -> Birthday_init b = Ok d ->
      add_birthday_handler (n :: b :: rest) book
      = (Ok (dir_file_color (py "ADD")
               (py "Birthday for " ++ n ++ py " added/updated.")),
         dict_set book n (mkRecord (name r) (phones r) (Some d))))
  /\ (forall d,
         find book n = None -> isalpha n = true -> Birthday_init b = Ok d ->
         add_birthday_handler (n :: b :: rest) book
         = (Ok (dir_file_color (py "ADD")
                  (py "Birthday for " ++ n ++ py " added/updated.")),
            book ++ [(n, mkRecord n [] (Some d))]))
  /\ (forall r,
         find book n = Some r -> Birthday_init b = Raise InvalidDate ->
         add_birthday_handler (n :: b :: rest) book
         = (Ok (value_warning (py "Invalid date format. Use DD.MM.YYYY")), book))
  /\ (find book n = None -> isalpha n = true ->
      Birthday_init b = Raise InvalidDate ->
      add_birthday_handler (n :: b :: rest) book
      = (Ok (value_warning (py "Invalid date format. Use DD.MM.YYYY")),
         book ++ [(n, mkRecord n [] None)])).
Proof.
  unfold add_birthday_handler, add_birthday_body, add_birthday.
  split; [|split; [|split]].
  - intros r d F B. rewrite F, B. reflexivity.
  - intros d F A B. rewrite F. unfold Record_init.
    rewrite (Name_init_alpha _ A). cbn [bind]. rewrite B.
    cbn [bind name phones birthday]. unfold add_record. cbn [name].
    rewrite (dict_set_absent _ _ _ F), (dict_set_app_last _ _ _ _ F).
    reflexivity.
  - intros r F B. rewrite F, B. reflexivity.
  - intros F A B. rewrite F. unfold Record_init.
    rewrite (Name_init_alpha _ A). cbn [bind]. rewrite B.
    cbn [bind]. unfold add_record. cbn [name].
    rewrite (dict_set_absent _ _ _ F). reflexivity.
Qed.

(** X16: after the handler [add_birthday] has been given a name that the
    book holds, or a valid new one, and a valid date text of ASCII
    digits with a year from 1000 on, [show_birthday] for that name
    replies with that very text. *)
Theorem show_birthday_after_add
  (book : AddressBook) (n : str) (d1 d2 m1 m2 y1 y2 y3 y4 : N) (d : date) :
  let text : str := [d1; d2; 46; m1; m2; 46; y1; y2; y3; y4]%N in
  forallb is_ascii_digit [d1; d2; m1; m2; y1; y2; y3; y4] = true ->
  Birthday_init text = Ok d ->
  1000 <= year d ->
  find book n <> None \/ isalpha n = true ->
  show_birthday [n] (snd (add_birthday_handler [n; text] book))
  = (Ok (n ++ py "'s birthday is on " ++ text ++ py "."),
     snd (add_birthday_handler [n; text] book)).
Proof.
  intros text A B K H.
  pose proof (strftime_of_parsed d1 d2 m1 m2 y1 y2 y3 y4 d A B K) as S.
  fold text in S.
  assert (E : exists r,
             find (snd (add_birthday_handler [n; text] book)) n = Some r
             /\ birthday r = Some d).
  { destruct (find book n) as [r|] eqn:F.
    - rewrite (proj1 (add_birthday_handler_spec_aux book n text []) r d F B).
      simpl snd. unfold find. rewrite dict_get_set, str_eqb_refl. eauto.
    - destruct H as [H | H]; [congruence|].
      rewrite (proj2 (add_birthday_handler_spec_aux book n text []) d F H B).
      simpl snd. unfold find.
      rewrite <- (dict_set_absent book n (mkRecord n [] (Some d)) F).
      rewrite dict_get_set, str_eqb_refl. eauto. }
  destruct E as [r [F Br]].
  unfold show_birthday, show_birthday_body. rewrite F, Br, S. reflexivity.
Qed.

End DeleteAndBirthday.

Lemma delete_contact_spec_witness :
  delete_contact [py "Zoe"] june_book
  = (Ok (key_warning (py "Contact not found.")), june_book)
  /\ delete_contact [] june_book
     = (Ok (value_warning
              (py "not enough values to unpack (expected at least 1, got 0)")),
        june_book)
  /\ exists book',
      delete_contact [py "Bob"; py "now"] june_book
      = (Ok (dir_file_color (py "DELETE") (py "Contact Bob deleted.")), book')
      /\ find book' (py "Bob") = None.
Proof.
  destruct (delete_contact_spec june_book) as (A & B & C). split; [|split].
  - apply B. reflexivity.
  - exact A.
  - destruct (C (py "Bob") [py "now"]
                (mkRecord (py "Bob") [] (Some (mkdate 1985 6 8))) eq_refl)
      as (book' & E & N & _).
    exists book'. split; [exact E|]. apply N.
    repeat constructor; simpl; intuition discriminate.
Defined.

Lemma add_birthday_handler_spec_witness :
  add_birthday_handler [py "Alice"; py "01.02.2000"] alice_book
  = (Ok (dir_file_color (py "ADD") (py "Birthday for Alice added/updated.")),
     [(py "Alice",
       mkRecord (py "Alice") [py "1234567890"] (Some (mkdate 2000 2 1)))])
  /\ add_birthday_handler [py "Dave"; py "31.04.2021"] alice_book
     = (Ok (value_warning (py "Invalid date format. Use DD.MM.YYYY")),
        [(py "Alice", alice_1990); (py "Dave", mkRecord (py "Dave") [] None)]).
Proof.
  split.
  - apply (proj1 (add_birthday_handler_spec alice_book (py "Alice")
                    (py "01.02.2000") []) alice_1990 (mkdate 2000 2 1));
      reflexivity.
  - apply (proj2 (proj2 (proj2 (add_birthday_handler_spec alice_book (py "Dave")
                                  (py "31.04.2021") []))));
      reflexivity.
Defined.

Lemma show_birthday_after_add_witness :
  show_birthday [py "Alice"]
    (snd (add_birthday_handler [py "Alice"; py "29.02.2024"] alice_book))
  = (Ok (py "Alice's birthday is on 29.02.2024."),
     snd (add_birthday_handler [py "Alice"; py "29.02.2024"] alice_book)).
Proof.
  apply (show_birthday_after_add alice_book (py "Alice")
           50 57 48 50 50 48 50 52 (mkdate 2024 2 29)).
  - reflexivity.
  - reflexivity.
  - simpl. lia.
  - left. discriminate.
Defined.

(** ** The handler birthdays *)

Lemma date_new_raises (y m d : Z) (e : exn) :
  date_new y m d = Raise e -> exists msg, e = ValueError msg.
Proof.
  destruct (valid_ymd y m d) eqn:V.
  - rewrite (date_new_valid _ _ _ V). discriminate.
  - destruct (date_new_invalid _ _ _ V) as [msg ->]. intros H.
    injection H as <-. eauto.
Qed.

Lemma upcoming_step_raises (today : date) (r : record) (e : exn) :
  toordinal today + 8 <= MAXORDINAL ->
  upcoming_step today r = Raise e -> exists msg, e = ValueError msg.
Proof.
  intros T H. unfold upcoming_step in H.
  destruct (birthday r) as [b|]; [|discriminate H].
  unfold replace_year in H.
  destruct (date_new (year today) (month b) (day b)) as [d0|e0] eqn:D0;
    cbn [bind] in H; [|injection H as <-; apply (date_new_raises _ _ _ _ D0)].
  destruct (if date_ltb d0 today
            then date_new (year today + 1) (month b) (day b)
            else Ok d0) as [occ|e1] eqn:D1; cbn [bind] in H.
  - unfold days_between in H.
    destruct ((0 <=? toordinal occ - toordinal today)
              && (toordinal occ - toordinal today <? 7)) eqn:W;
      [|discriminate H].
    apply andb_true_iff in W. destruct W as [_ W]. apply Z.ltb_lt in W.
    unfold date_add in H.
    change (Z.of_nat 2) with 2 in H. change (Z.of_nat 1) with 1 in H.
    assert (E2 : (toordinal occ + 2 <=? MAXORDINAL) = true)
      by (apply Z.leb_le; lia).
    assert (E1 : (toordinal occ + 1 <=? MAXORDINAL) = true)
      by (apply Z.leb_le; lia).
    rewrite E2, E1 in H.
    destruct (weekday occ =? 5); [discriminate H|].
    destruct (weekday occ =? 6); discriminate H.
  - injection H as <-. destruct (date_ltb d0 today); [|discriminate D1].
    apply (date_new_raises _ _ _ _ D1).
Qed.

Lemma upcoming_loop_raises_ValueError (today : date) (records : list record) :
  toordinal today + 8 <= MAXORDINAL ->
  forall upcoming e,
    upcoming_loop today records upcoming = Raise e ->
    exists msg, e = ValueError msg.
Proof.
  intros T. induction records as [|r records IH]; simpl; intros upcoming e H;
    [discriminate H|].
  destruct (upcoming_step today r) as [o|e0] eqn:S; cbn [bind] in H.
  - apply (IH _ _ H).
  - injection H as <-. apply (upcoming_step_raises today r e0 T S).
Qed.

(** X17: up to 23 December 9999 the handler [birthdays] never raises and
    never changes the book: it replies with the list, with the text for
    an empty list, or with the warning made of the [ValueError] of a
    birthday that has no occurrence. *)
Theorem birthdays_never_raises
  (today : date) (args : list str) (book : AddressBook) :
  toordinal today + 8 <= MAXORDINAL ->
  exists reply, birthdays today args book = (Ok reply, book).
Proof.
  intros T. unfold birthdays, birthdays_body.
  destruct (get_upcoming_birthdays book today) as [l|e] eqn:G.
  - destruct l; eexists; reflexivity.
  - unfold get_upcoming_birthdays in G.
    destruct (upcoming_loop_raises_ValueError today (values book) T [] e G)
      as [msg ->].
    eexists. reflexivity.
Qed.

Lemma birthdays_never_raises_witness :
  exists reply, birthdays first_of_march_2025 [] leap_day_book
                = (Ok reply, leap_day_book).
Proof.
  apply (birthdays_never_raises first_of_march_2025 [] leap_day_book).
  vm_compute. discriminate.
Defined.

(** ** Reading a command *)

Section ParseInput.
Context {T : UnicodeText}.

Lemma split_from_blank (s : str) :
  forallb isspace_char s = true -> split_from s [] = [].
Proof.
  induction s as [|c s IH]; simpl; [reflexivity|].
  intros H. apply andb_true_iff in H. destruct H as [C H].
  rewrite C. apply IH, H.
Qed.

Lemma split_from_cons (s : str) :
  forall word,
    word <> [] \/ forallb isspace_char s = false -> split_from s word <> [].
Proof.
  induction s as [|c s IH]; simpl; intros word H.
  - destruct H as [H | H]; [|discriminate H]. destruct word; congruence.
  - destruct (isspace_char c) eqn:C; simpl in H.
    + destruct word as [|x word]; [|discriminate].
      apply IH. destruct H as [H | H]; [congruence | right; exact H].
    + apply IH. left. discriminate.
Qed.

Lemma is_word_rev (word : str) :
  word <> [] -> forallb (fun c => negb (isspace_char c)) word = true ->
  is_word (rev word).
Proof.
  intros N F. split.
  - intros E. apply N. rewrite <- (rev_involutive word), E. reflexivity.
  - apply forallb_forall. intros x I. apply in_rev in I.
    apply (proj1 (forallb_forall _ _) F x I).
Qed.

Lemma split_from_words (s : str) :
  forall word,
    forallb (fun c => negb (isspace_char c)) word = true ->
    Forall is_word (split_from s word).
Proof.
  induction s as [|c s IH]; simpl; intros word F.
  - destruct word as [|x word]; [constructor|].
    constructor; [|constructor]. apply is_word_rev; [discriminate | exact F].
  - destruct (isspace_char c) eqn:C.
    + destruct word as [|x word]; [apply IH; reflexivity|].
      constructor; [|apply IH; reflexivity].
      apply is_word_rev; [discriminate | exact F].
    + apply IH. simpl. rewrite C. exact F.
Qed.

(** A run without white space is read into the word. *)
Lemma split_from_run (w rest word : str) :
  forallb (fun c => negb (isspace_char c)) w = true ->
  split_from (w ++ rest) word = split_from rest (rev w ++ word).
Proof.
  revert word. induction w as [|c w IH]; simpl; intros word F; [reflexivity|].
  apply andb_true_iff in F. destruct F as [C F].
  apply negb_true_iff in C. rewrite C, (IH _ F), <- app_assoc. reflexivity.
Qed.

Lemma split_join_words (ws : list str) :
  isspace_char 32 = true -> Forall is_word ws -> split (join [32%N] ws) = ws.
Proof.
  intros Sp. unfold split. induction 1 as [|w ws [N F] Ws IH]; [reflexivity|].
  simpl join. destruct ws as [|w' ws].
  - rewrite <- (app_nil_r w) at 1. rewrite (split_from_run w [] [] F).
    simpl. rewrite app_nil_r.
    destruct (rev w) eqn:R.
    + exfalso. apply N. rewrite <- (rev_involutive w), R. reflexivity.
    + rewrite <- R, rev_involutive. reflexivity.
  - rewrite (split_from_run w _ [] F). rewrite app_nil_r.
    cbn [app split_from]. rewrite Sp.
    destruct (rev w) eqn:R.
    + exfalso. apply N. rewrite <- (rev_involutive w), R. reflexivity.
    + rewrite <- R, rev_involutive, IH. reflexivity.
Qed.

(** X18: [parse_input] raises [IndexError] exactly on the lines that
    hold nothing but white space, the empty line among them; on any other
    line it returns the first word in lower case as the command and the
    other words as the arguments, none of which is empty or holds white
    space. *)
Theorem parse_input_spec (user_input : str) :
  (forallb isspace_char user_input = true ->
   parse_input user_input = Raise (IndexError (py "list index out of range")))
  /\ (forallb isspace_char user_input = false ->
      exists p rest,
        split user_input = p :: rest
        /\ parse_input user_input = Ok (lower p, rest)
        /\ is_word p /\ Forall is_word rest).
Proof.
  unfold parse_input, split. split; intros H.
  - rewrite (split_from_blank _ H). reflexivity.
  - pose proof (split_from_cons user_input [] (or_intror H)) as N.
    pose proof (split_from_words user_input [] eq_refl) as W.
    destruct (split_from user_input []) as [|p rest]; [congruence|].
    exists p, rest. inversion W; subst. auto.
Qed.

(** X19: a line made of words separated by single spaces is parsed into
    the first word in lower case and exactly the other words, in their
    order. *)
Theorem parse_input_words (command : str) (args : list str) :
  isspace_char 32 = true ->
  Forall is_word (command :: args) ->
  parse_input (join [32%N] (command :: args)) = Ok (lower command, args).
Proof.
  intros Sp W. unfold parse_input.
  rewrite (split_join_words (command :: args) Sp W). reflexivity.
Qed.

End ParseInput.

Lemma parse_input_spec_witness :
  parse_input (py "   ") = Raise (IndexError (py "list index out of range"))
  /\ exists p rest,
      split (py "  ADD  Bob 1234567890 ") = p :: rest
      /\ parse_input (py "  ADD  Bob 1234567890 ") = Ok (lower p, rest)
      /\ is_word p /\ Forall is_word rest.
Proof.
  split.
  - apply (proj1 (parse_input_spec (py "   "))). reflexivity.
  - apply (proj2 (parse_input_spec (py "  ADD  Bob 1234567890 "))). reflexivity.
Defined.

Lemma parse_input_words_witness :
  parse_input (py "Change Bob 1234567890 0987654321")
  = Ok (py "change", [py "Bob"; py "1234567890"; py "0987654321"]).
Proof.
  change (parse_input
            (join [32%N] [py "Change"; py "Bob"; py "1234567890"; py "0987654321"])
          = Ok (lower (py "Change"),
                [py "Bob"; py "1234567890"; py "0987654321"])).
  apply (parse_input_words (py "Change")
           [py "Bob"; py "1234567890"; py "0987654321"]).
  - reflexivity.
  - repeat constructor; discriminate.
Defined.

(** ** The command loop *)

Lemma input_error_snd (o : outcome) : snd (input_error o) = snd o.
Proof.
  destruct o as [[reply|e] book]; [reflexivity|]. destruct e; reflexivity.
Qed.

Lemma birthdays_snd (today : date) (args : list str) (book : AddressBook) :
  snd (birthdays today args book) = book.
Proof.
  unfold birthdays. rewrite input_error_snd. unfold birthdays_body.
  destruct (get_upcoming_birthdays book today) as [[|e l]|]; reflexivity.
Qed.

Lemma print_outcome_Ok (o : outcome) (fs : filesystem) (t : turn) :
  print_outcome o fs = Ok t ->
  book_after t = snd o /\ files_after t = fs /\ stopped t = false.
Proof.
  destruct o as [[reply|e] book]; simpl; [|discriminate].
  intros H. injection H as <-. auto.
Qed.

Section Session.
Context {U : UnicodeData} {T : UnicodeText}.

Lemma show_contact_snd (args : list str) (book : AddressBook) :
  snd (show_contact args book) = book.
Proof.
  unfold show_contact. rewrite input_error_snd.
  apply show_contact_body_caught.
Qed.

Lemma show_birthday_snd (args : list str) (book : AddressBook) :
  snd (show_birthday args book) = book.
Proof.
  unfold show_birthday. rewrite input_error_snd.
  apply show_birthday_body_caught.
Qed.

(** What a turn of the loop can have done. *)
Lemma main_step_inv (today : date) (line : str) (book : AddressBook)
  (fs : filesystem) (t : turn) :
  main_step today line book fs = Ok t ->
  (stopped t = true /\ book_after t = book
   /\ files_after t = save_data book fs PHONEBOOK_FILE)
  \/ (stopped t = false /\ files_after t = fs
      /\ (book_after t = book
          \/ exists args,
              book_after t = snd (add_contact args book)
              \/ book_after t = snd (change_contact args book)
              \/ book_after t = snd (add_birthday_handler args book)
              \/ book_after t = snd (delete_contact args book))).
Proof.
  unfold main_step. destruct (parse_input line) as [[c args]|e]; cbn [bind];
    [|discriminate].
  repeat match goal with
         | |- context [if ?b then _ else _] => destruct b
         end; intros H;
    try (injection H as <-; simpl; auto; fail);
    apply print_outcome_Ok in H; destruct H as (B & F & S); right;
    (split; [exact S|]); (split; [exact F|]); rewrite B.
  - right. exists args. auto.
  - right. exists args. auto.
  - left. apply show_contact_snd.
  - right. exists args. auto.
  - left. apply show_birthday_snd.
  - left. apply birthdays_snd.
  - right. exists args. auto.
Qed.

Lemma main_loop_inv (today : date) (inputs : list str) :
  forall (book : AddressBook) (fs : filesystem) (t : turn),
    main_loop today inputs book fs = Ok t ->
    (stopped t = false -> files_after t = fs)
    /\ (stopped t = true ->
        files_after t = save_data (book_after t) fs PHONEBOOK_FILE).
Proof.
  induction inputs as [|line inputs IH]; simpl; intros book fs t H.
  - injection H as <-. simpl. split; [reflexivity | discriminate].
  - destruct (main_step today line book fs) as [t1|] eqn:S1; cbn [bind] in H;
      [|discriminate].
    destruct (main_step_inv today line book fs t1 S1)
      as [(St & B & F) | (St & F & _)]; rewrite St in H.
    + injection H as <-. split; [congruence|]. intros _. congruence.
    + destruct (main_loop today inputs (book_after t1) (files_after t1))
        as [t2|] eqn:S2; cbn [bind] in H; [|discriminate].
      injection H as <-. simpl. rewrite F in S2. apply (IH _ _ _ S2).
Qed.

(** X20: a session writes the file only when it is left with close,
    exit or quit.  While it has not been left the files are as they were
    at its start, whatever was added, changed or deleted; once it has
    been left, [load_data] on the files returns the book that the session
    ended with, and so does the start of the next session. *)
Theorem session_persistence
  (today : date) (inputs : list str) (book : AddressBook) (fs : filesystem)
  (t : turn) :
  main_loop today inputs book fs = Ok t ->
  (stopped t = false -> files_after t = fs)
  /\ (stopped t = true ->
      load_data (files_after t) PHONEBOOK_FILE = Ok (book_after t)
      /\ exists lines, main_start (files_after t) = Ok (lines, book_after t)).
Proof.
  intros H. destruct (main_loop_inv today inputs book fs t H) as [A B].
  split; [exact A|]. intros St. rewrite (B St).
  assert (L : load_data (save_data (book_after t) fs PHONEBOOK_FILE) PHONEBOOK_FILE
              = Ok (book_after t)).
  { unfold load_data, open_rb, save_data. rewrite dict_get_set_same. reflexivity. }
  split; [exact L|]. unfold main_start. rewrite L. cbn [bind].
  eexists. reflexivity.
Qed.

(** X21: a line that holds nothing but white space, the empty line among
    them, ends the program with the [IndexError] of [parse_input], which
    no handler catches; and the commands hello, help, phone, all,
    show-birthday and birthdays, when they return, leave the book and the
    files as they were and do not leave the loop. *)
Theorem main_step_reading
  (today : date) (line : str) (book : AddressBook) (fs : filesystem) :
  (forallb isspace_char line = true ->
   main_step today line book fs
   = Raise (IndexError (py "list index out of range")))
  /\ (forall command args t,
         parse_input line = Ok (command, args) ->
         In command [py "hello"; py "help"; py "phone"; py "all";
                     py "show-birthday"; py "birthdays"] ->
         main_step today line book fs = Ok t ->
         book_after t = book /\ files_after t = fs /\ stopped t = false).
Proof.
  split.
  - intros H. unfold main_step, parse_input, split.
    rewrite (split_from_blank _ H). reflexivity.
  - intros command args t P I. unfold main_step. rewrite P. cbn [bind].
    simpl in I.
    destruct I as [<- | [<- | [<- | [<- | [<- | [<- | []]]]]]];
      cbn [str_eqb py N_of_ascii N.eqb Pos.eqb andb orb];
      intros H; try (injection H as <-; auto; fail);
      apply print_outcome_Ok in H; destruct H as (B & F & S);
      rewrite B; (split; [|split; assumption]).
    + apply show_contact_snd.
    + apply show_birthday_snd.
    + apply birthdays_snd.
Qed.

End Session.

(** ** The book of a session *)

Section SessionInvariant.
Context {U : UnicodeData} {T : UnicodeText}.

Lemma add_contact_wf (args : list str) (book : AddressBook) :
  wf_book book -> wf_book (snd (add_contact args book)).
Proof.
  intros W. unfold add_contact. rewrite input_error_snd.
  unfold add_contact_body. destruct args as [|n [|phone rest]]; simpl; auto.
  destruct (find book n) as [r|] eqn:F.
  - destruct (negb (is_empty phone)); simpl; auto.
    destruct (add_phone r phone) as [r'|] eqn:A; simpl; auto.
    destruct (find_name book n r W F) as [_ Wr].
    destruct (add_phone_wf r r' phone A Wr) as [E W'].
    apply (update_found_wf book n r r' W F E W').
  - destruct (Record_init n) as [r|] eqn:R; simpl; auto.
    destruct (Record_init_wf n r R) as [_ Wr].
    pose proof (add_record_wf book r W Wr) as W1.
    destruct (negb (is_empty phone)); simpl; auto.
    destruct (add_phone r phone) as [r'|] eqn:A; simpl; auto.
    destruct (add_phone_wf r r' phone A Wr) as [E W'].
    apply (update_found_wf (add_record book r) (name r) r r' W1); auto.
    unfold find, add_record. rewrite dict_get_set, str_eqb_refl. reflexivity.
Qed.

Lemma change_contact_wf (args : list str) (book : AddressBook) :
  wf_book book -> wf_book (snd (change_contact args book)).
Proof.
  intros W. unfold change_contact. rewrite input_error_snd.
  unfold change_contact_body. destruct args as [|n [|o [|p rest]]]; simpl; auto.
  destruct (find book n) as [r|] eqn:F; simpl; auto.
  destruct (edit_phone r o p) as [[f r']|] eqn:E; simpl; auto.
  destruct (find_name book n r W F) as [_ Wr].
  destruct (edit_phone_wf r r' o p f E Wr) as [En W'].
  apply (update_found_wf book n r r' W F En W').
Qed.

Lemma add_birthday_handler_wf (args : list str) (book : AddressBook) :
  wf_book book -> wf_book (snd (add_birthday_handler args book)).
Proof.
  intros W. unfold add_birthday_handler. rewrite input_error_snd.
  unfold add_birthday_body. destruct args as [|n [|b rest]]; simpl; auto.
  destruct (find book n) as [r|] eqn:F.
  - destruct (add_birthday r b) as [r'|] eqn:A; simpl; auto.
    destruct (find_name book n r W F) as [_ Wr].
    destruct (add_birthday_wf r r' b A Wr) as [E W'].
    apply (update_found_wf book n r r' W F E W').
  - destruct (Record_init n) as [r|] eqn:R; simpl; auto.
    destruct (Record_init_wf n r R) as [_ Wr].
    pose proof (add_record_wf book r W Wr) as W1.
    destruct (add_birthday r b) as [r'|] eqn:A; simpl; auto.
    destruct (add_birthday_wf r r' b A Wr) as [E W'].
    apply (update_found_wf (add_record book r) (name r) r r' W1); auto.
    unfold find, add_record. rewrite dict_get_set, str_eqb_refl. reflexivity.
Qed.

Lemma delete_contact_wf (args : list str) (book : AddressBook) :
  wf_book book -> wf_book (snd (delete_contact args book)).
Proof.
  intros W. unfold delete_contact. rewrite input_error_snd.
  unfold delete_contact_body. destruct args as [|n rest]; simpl; auto.
  destruct (find book n); simpl; auto. apply delete_wf, W.
Qed.

Lemma main_step_wf (today : date) (line : str) (book : AddressBook)
  (fs : filesystem) (t : turn) :
  wf_book book -> main_step today line book fs = Ok t -> wf_book (book_after t).
Proof.
  intros W H.
  destruct (main_step_inv today line book fs t H)
    as [(_ & B & _) | (_ & _ & [B | [args [B | [B | [B | B]]]]])];
    rewrite B; auto.
  - apply add_contact_wf, W.
  - apply change_contact_wf, W.
  - apply add_birthday_handler_wf, W.
  - apply delete_contact_wf, W.
Qed.

(** X22: the book stays well formed through a session.  From a book with
    distinct names, each record under its own name and the fields as the
    constructors accept them, any lines typed lead, when the loop returns,
    to a book that is so again; the book of a first start, which is
    empty, is one. *)
Theorem session_keeps_wf
  (today : date) (inputs : list str) (book : AddressBook) (fs : filesystem)
  (t : turn) :
  wf_book book ->
  main_loop today inputs book fs = Ok t ->
  wf_book (book_after t).
Proof.
  revert book fs t. induction inputs as [|line inputs IH]; simpl;
    intros book fs t W H.
  - injection H as <-. exact W.
  - destruct (main_step today line book fs) as [t1|] eqn:S1; cbn [bind] in H;
      [|discriminate].
    pose proof (main_step_wf today line book fs t1 W S1) as W1.
    destruct (stopped t1).
    + injection H as <-. exact W1.
    + destruct (main_loop today inputs (book_after t1) (files_after t1))
        as [t2|] eqn:S2; cbn [bind] in H; [|discriminate].
      injection H as <-. simpl. apply (IH _ _ _ W1 S2).
Qed.

End SessionInvariant.

(** A session on an empty book: two contacts, a birthday, a change that
    fails, a deletion, and the end. *)
Lemma session_persistence_witness :
  let lines := [py "add Bob 1234567890"; py "add-birthday Ann 15.06.1990";
                py "change Bob 1234567890 12"; py "delete Bob"; py "EXIT"] in
  let book := [(py "Ann", mkRecord (py "Ann") [] (Some (mkdate 1990 6 15)))] in
  load_data [(PHONEBOOK_FILE, Pickled book)] PHONEBOOK_FILE = Ok book
  /\ exists out, main_start [(PHONEBOOK_FILE, Pickled book)] = Ok (out, book).
Proof.
  intros lines book.
  assert (E : exists t,
             main_loop monday_10_june_2024 lines AddressBook_init [] = Ok t
             /\ stopped t = true
             /\ files_after t = [(PHONEBOOK_FILE, Pickled book)]
             /\ book_after t = book)
    by (eexists; repeat split; vm_compute; reflexivity).
  destruct E as (t & H & St & F & B).
  rewrite <- F, <- B.
  apply (proj2 (session_persistence monday_10_june_2024 lines AddressBook_init
                  [] t H) St).
Defined.

Lemma session_keeps_wf_witness :
  wf_book [(py "Ann", mkRecord (py "Ann") [] (Some (mkdate 1990 6 15)))].
Proof.
  apply (session_keeps_wf monday_10_june_2024
           [py "add Bob 1234567890"; py "add-birthday Ann 15.06.1990";
            py "change Bob 1234567890 12"; py "delete Bob"]
           AddressBook_init []
           (mkTurn
              [dir_file_color (py "ADD") (py "Contact added.");
               dir_file_color (py "ADD") (py "Birthday for Ann added/updated.");
               value_warning (py "Phone number must be exactly 10 digits.");
               dir_file_color (py "DELETE") (py "Contact Bob deleted.")]
              [(py "Ann", mkRecord (py "Ann") [] (Some (mkdate 1990 6 15)))]
              [] false)).
  - split; constructor.
  - vm_compute. reflexivity.
Defined.

Lemma main_step_reading_witness :
  main_step monday_10_june_2024 (py "  ") alice_book []
  = Raise (IndexError (py "list index out of range"))
  /\ match main_step monday_10_june_2024 (py "phone Alice") alice_book [] with
     | Ok t => book_after t = alice_book /\ files_after t = [] /\ stopped t = false
     | Raise _ => False
     end.
Proof.
  split.
  - apply (proj1 (main_step_reading monday_10_june_2024 (py "  ") alice_book [])).
    reflexivity.
  - assert (E : main_step monday_10_june_2024 (py "phone Alice") alice_book []
                = Ok (mkTurn [py "Alice: 1234567890"] alice_book [] false))
      by reflexivity.
    rewrite E.
    apply (proj2 (main_step_reading monday_10_june_2024 (py "phone Alice")
                    alice_book [])
             (py "phone") [py "Alice"]
             (mkTurn [py "Alice: 1234567890"] alice_book [] false)).
    + reflexivity.
    + simpl. right. right. left. reflexivity.
    + exact E.
Defined.
